(** * Spotify saved-episode remover: a shallow embedding of [remove.py]

    The development follows the script top-down:

    - the slice of Python's [datetime] and of [pytz] that the script calls
      ([strptime] with its two format strings, [localize], [astimezone],
      comparison of aware datetimes);
    - the JSON records the script reads (a saved episode, its episode and
      its show);
    - the console and the HTTP server as an explicit [world]: a script of
      pending responses and the trace of prints and requests made so far;
    - the functions of [remove.py], under their own names;
    - the properties of these functions.

    Strings are byte strings (the UTF-8 encoding of Python's [str]); the
    byte-wise lexicographic order on them is the code-point order Python
    uses to compare [str] values. *)

From Stdlib Require Import ZArith Ascii String Lia.
From stdpp Require Import base option list strings gmap sorting.

Local Open Scope Z_scope.

(** ** Exceptions and results *)

Inductive exn :=
  | ValueError          (* strptime, datetime constructor *)
  | OverflowError       (* datetime + timedelta out of range *)
  | UnboundLocalError   (* read of a local that was never assigned *)
  | KeyError            (* missing key in a JSON body *)
  | ConnectionError.    (* requests: the server gives no response *)

Inductive result (A : Type) :=
  | Ok (a : A)
  | Raise (e : exn).
Arguments Ok {A} a.
Arguments Raise {A} e.

Definition is_ok {A} (r : result A) : bool :=
  match r with Ok _ => true | Raise _ => false end.

Definition rbind {A B} (r : result A) (f : A → result B) : result B :=
  match r with Ok a => f a | Raise e => Raise e end.

(** ** Python's [datetime]: calendar arithmetic

    Transcribed from the helpers of CPython's [datetime] module. *)

Module Datetime.

Record datetime := mk_datetime {
  year : Z; month : Z; day : Z;
  hour : Z; minute : Z; second : Z
}.

Definition MINYEAR : Z := 1.
Definition MAXYEAR : Z := 9999.

Definition is_leap (y : Z) : bool :=
  (y mod 4 =? 0) && (negb (y mod 100 =? 0) || (y mod 400 =? 0)).

Definition days_before_year (y : Z) : Z :=
  let p := y - 1 in p * 365 + p / 4 - p / 100 + p / 400.

Definition DAYS_IN_MONTH : list Z :=
  [31; 28; 31; 30; 31; 30; 31; 31; 30; 31; 30; 31].

Definition days_in_month (y m : Z) : Z :=
  if (m =? 2) && is_leap y then 29
  else nth (Z.to_nat (m - 1)) DAYS_IN_MONTH 0.

Definition days_before_month (y m : Z) : Z :=
  fold_right Z.add 0 (firstn (Z.to_nat (m - 1)) DAYS_IN_MONTH)
  + (if (2 <? m) && is_leap y then 1 else 0).

(** [date.toordinal]: 0001-01-01 is day 1. *)
Definition ymd2ord (y m d : Z) : Z :=
  days_before_year y + days_before_month y m + d.

(** The constructor's range checks; every failure is a [ValueError]. *)
Definition check_fields (dt : datetime) : result datetime :=
  if (MINYEAR <=? year dt) && (year dt <=? MAXYEAR)
     && (1 <=? month dt) && (month dt <=? 12)
     && (1 <=? day dt) && (day dt <=? days_in_month (year dt) (month dt))
     && (0 <=? hour dt) && (hour dt <=? 23)
     && (0 <=? minute dt) && (minute dt <=? 59)
     && (0 <=? second dt) && (second dt <=? 59)
  then Ok dt else Raise ValueError.

(** A naive datetime as a count of seconds: ordinal day times 86400 plus
    the time of day.  All arithmetic on datetimes is done on this count. *)
Definition toordinal (dt : datetime) : Z :=
  ymd2ord (year dt) (month dt) (day dt).

Definition seconds_of (dt : datetime) : Z :=
  toordinal dt * 86400 + hour dt * 3600 + minute dt * 60 + second dt.

Definition MIN_SECONDS : Z :=
  Eval cbv in seconds_of (mk_datetime 1 1 1 0 0 0).
Definition MAX_SECONDS : Z :=
  Eval cbv in seconds_of (mk_datetime 9999 12 31 23 59 59).

(** [datetime + timedelta]: [OverflowError] outside year 1..9999. *)
Definition add_seconds (s delta : Z) : result Z :=
  let r := s + delta in
  if (MIN_SECONDS <=? r) && (r <=? MAX_SECONDS) then Ok r
  else Raise OverflowError.

(** An aware datetime: the wall clock it shows, as seconds, and the UTC
    offset of the tzinfo attached to it. *)
Record aware := mk_aware { wall : Z; utcoffset : Z }.

Definition instant (a : aware) : Z := wall a - utcoffset a.

(** [a < b] on aware datetimes.  Python compares the wall clocks when the
    two tzinfo objects are the same or have equal offsets and the
    differences to UTC otherwise; both are the order of the instants. *)
Definition aware_lt (a b : aware) : bool := instant a <? instant b.

End Datetime.
Export Datetime.

(** ** [datetime.strptime] for the two formats of the script

    The format is compiled to a regular expression, one group per
    directive, matched at the start of the string with case ignored; the
    match must consume the whole string.  In both formats a directive is
    followed by a literal that is not a digit (or by the end), so the
    ordered choice below finds the same match as the backtracking
    matcher. *)

Module Strptime.

Definition digit (c : ascii) : option Z :=
  let n := Z.of_N (N_of_ascii c) in
  if (48 <=? n) && (n <=? 57) then Some (n - 48) else None.

Definition lower (c : ascii) : N :=
  let n := N_of_ascii c in
  if ((65 <=? n) && (n <=? 90))%N then (n + 32)%N else n.

Definition directive := string → option (Z * string).

(** [%Y]: exactly four digits. *)
Definition dir_Y : directive := λ s,
  match s with
  | String a (String b (String c (String d rest))) =>
      match digit a, digit b, digit c, digit d with
      | Some x, Some y, Some z, Some w =>
          Some (1000 * x + 100 * y + 10 * z + w, rest)
      | _, _, _, _ => None
      end
  | _ => None
  end.

(** Two digits with a value in [lo2, hi2], else one digit in [lo1, 9]. *)
Definition two_or_one (lo2 hi2 lo1 : Z) : directive := λ s,
  match s with
  | String a rest =>
      match digit a with
      | Some x =>
          let one := if lo1 <=? x then Some (x, rest) else None in
          match rest with
          | String b rest' =>
              match digit b with
              | Some y =>
                  let v := 10 * x + y in
                  if (lo2 <=? v) && (v <=? hi2) then Some (v, rest')
                  else one
              | None => one
              end
          | EmptyString => one
          end
      | None => None
      end
  | EmptyString => None
  end.

(** [%m] is [1[0-2]|0[1-9]|[1-9]]. *)
Definition dir_m : directive := two_or_one 1 12 1.

(** [%d] is [3[0-1]|[1-2]\d|0[1-9]|[1-9]| [1-9]]. *)
Definition dir_d : directive := λ s,
  match s with
  | String " " (String b rest) =>
      match digit b with
      | Some y => if 1 <=? y then Some (y, rest) else None
      | None => None
      end
  | _ => two_or_one 1 31 1 s
  end.

(** [%H] is [2[0-3]|[0-1]\d|\d]. *)
Definition dir_H : directive := two_or_one 0 23 0.
(** [%M] is [[0-5]\d|\d]. *)
Definition dir_M : directive := two_or_one 0 59 0.
(** [%S] is [6[0-1]|[0-5]\d|\d]. *)
Definition dir_S : directive := two_or_one 0 61 0.

(** A literal character of the format, matched ignoring case. *)
Definition lit (c : ascii) (s : string) : option string :=
  match s with
  | String a rest => if (lower a =? lower c)%N then Some rest else None
  | EmptyString => None
  end.

(** The match of ['%Y-%m-%d'] at the start of [s]. *)
Definition match_date (s : string) : option (Z * Z * Z * string) :=
  '(y, s) ← dir_Y s; s ← lit "-" s;
  '(m, s) ← dir_m s; s ← lit "-" s;
  '(d, s) ← dir_d s;
  Some (y, m, d, s).

(** [datetime.strptime(s, '%Y-%m-%d')] *)
Definition strptime_date (s : string) : result datetime :=
  match match_date s with
  | Some (y, m, d, EmptyString) => check_fields (mk_datetime y m d 0 0 0)
  | _ => Raise ValueError
  end.

(** [datetime.strptime(s, '%Y-%m-%dT%H:%M:%SZ')] *)
Definition strptime_timestamp (s : string) : result datetime :=
  match
    '(y, m, d, s) ← match_date s; s ← lit "T" s;
    '(hh, s) ← dir_H s; s ← lit ":" s;
    '(mm, s) ← dir_M s; s ← lit ":" s;
    '(ss, s) ← dir_S s; s ← lit "Z" s;
    Some (mk_datetime y m d hh mm ss, s)
  with
  | Some (dt, EmptyString) => check_fields dt
  | _ => Raise ValueError
  end.

End Strptime.
Export Strptime.

(** ** [pytz]: the three kinds of tzinfo

    [pytz.utc], a [StaticTzInfo] with one fixed offset, and a [DstTzInfo]
    whose offset depends on the date.  The transition table of a
    [DstTzInfo] is a parameter: [utc_offset_at u] is the offset in force at
    the UTC time [u] (what [fromutc] looks up), [wall_offset_at w] is the
    offset [localize] picks for the wall clock [w] with is_dst=False.
    Offsets are in seconds. *)

Module Pytz.

Inductive tzinfo :=
  | UTC
  | StaticTzInfo (offset : Z)
  | DstTzInfo (utc_offset_at : Z → Z) (wall_offset_at : Z → Z).

(** [tz.localize(dt)] on a naive [dt].  [UTC] and [StaticTzInfo] only
    attach themselves; [DstTzInfo] first looks one day either side of
    [dt], which overflows on the first and last representable day. *)
Definition localize (tz : tzinfo) (dt : datetime) : result aware :=
  let w := seconds_of dt in
  match tz with
  | UTC => Ok (mk_aware w 0)
  | StaticTzInfo o => Ok (mk_aware w o)
  | DstTzInfo _ wall_offset_at =>
      rbind (add_seconds w (-86400)) (λ _,
      rbind (add_seconds w 86400) (λ _,
      Ok (mk_aware w (wall_offset_at w))))
  end.

(** [a.astimezone(tz)]: the same instant shown on [tz]'s wall clock, that
    is [tz.fromutc] of the instant; the addition of the offset can
    overflow. *)
Definition astimezone (a : aware) (tz : tzinfo) : result aware :=
  let u := instant a in
  match tz with
  | UTC => Ok (mk_aware u 0)
  | StaticTzInfo o => rbind (add_seconds u o) (λ w, Ok (mk_aware w o))
  | DstTzInfo utc_offset_at _ =>
      let o := utc_offset_at u in
      rbind (add_seconds u o) (λ w, Ok (mk_aware w o))
  end.



(** America/Los_Angeles, from the tz database entries for 2022 and 2023
    (standard time outside these two summers): PDT, UTC-7, from the
    second Sunday of March 10:00 UTC to the first Sunday of November
    09:00 UTC, PST, UTC-8, otherwise.  On the wall clock, is_dst=False
    resolves the skipped hour and the repeated hour to PST. *)
Definition PST : Z := -8 * 3600.
Definition PDT : Z := -7 * 3600.

Definition within (periods : list (datetime * datetime)) (s : Z) : bool :=
  existsb (λ p, (seconds_of p.1 <=? s) && (s <? seconds_of p.2)) periods.

Definition America_Los_Angeles : tzinfo :=
  DstTzInfo
    (λ u, if within [(mk_datetime 2022 3 13 10 0 0, mk_datetime 2022 11 6 9 0 0);
                     (mk_datetime 2023 3 12 10 0 0, mk_datetime 2023 11 5 9 0 0)] u
          then PDT else PST)
    (λ w, if within [(mk_datetime 2022 3 13 3 0 0, mk_datetime 2022 11 6 1 0 0);
                     (mk_datetime 2023 3 12 3 0 0, mk_datetime 2023 11 5 1 0 0)] w
          then PDT else PST).

End Pytz.
Export Pytz.

(** ** The JSON the script reads *)

Record show := mk_show {
  show_name : string;         (* ['name'] *)
  publisher : string          (* ['publisher'] *)
}.

Record episode := mk_episode {
  id : string;                (* ['id'] *)
  name : string;              (* ['name'] *)
  release_date : string;      (* ['release_date'] *)
  of_show : show              (* ['show'] *)
}.

(** An item of the saved-episodes listing. *)
Record saved_episode := mk_saved {
  added_at : string;          (* ['added_at'] *)
  the_episode : episode       (* ['episode'] *)
}.

Definition publisher_of (ep : saved_episode) : string :=
  publisher (of_show (the_episode ep)).

Inductive body :=
  | TokenJson (access_token : string)
  | PageJson (items : list saved_episode) (next : option string)
  | OtherJson.

Record response := mk_response {
  status_code : Z;
  text : string;
  json : body
}.

(** ** The console and the server *)

Inductive message :=
  | TokenObtained
  | TokenFailed (status : Z)
  | ResponseText (t : string)
  | FetchFailed (status : Z)
  | TotalFetched (n : nat)
  | NoAuthorsSelected
  | WouldRemove (title podcast author date_label : string) (date : aware)
  | TotalMatching (n : nat)
  | ExitingNoToken
  | NoEpisodesReturned
  | Removed (title podcast : string)
  | FailedToRemove (title podcast : string).

Inductive event :=
  | Print (m : message)
  | Post (url : string) (refresh_token client_id client_secret : option string)
  | Get (url bearer : string)
  | Delete (url bearer : string).

(** The responses the server will give, in the order of the requests, and
    what the script has printed and requested so far. *)
Record world := mk_world {
  pending : list response;
  trace : list event
}.

Definition M (A : Type) : Type := world → world * result A.

Definition ret {A} (a : A) : M A := λ w, (w, Ok a).
Definition raise {A} (e : exn) : M A := λ w, (w, Raise e).
Definition bind {A B} (m : M A) (k : A → M B) : M B := λ w,
  match m w with
  | (w', Ok a) => k a w'
  | (w', Raise e) => (w', Raise e)
  end.
Definition lift {A} (r : result A) : M A := λ w, (w, r).

#[global] Instance M_ret : MRet M := @ret.
#[global] Instance M_bind : MBind M := λ A B k m, bind m k.

Definition emit (e : event) : M unit := λ w,
  (mk_world (pending w) (trace w ++ [e]), Ok tt).

Definition print (m : message) : M unit := emit (Print m).

(** A request is recorded and answered by the next pending response; with
    none left the call raises. *)
Definition request (e : event) : M response := λ w,
  match pending w with
  | r :: rest => (mk_world rest (trace w ++ [e]), Ok r)
  | [] => (mk_world [] (trace w ++ [e]), Raise ConnectionError)
  end.

(** ** The functions of [remove.py] *)

Definition TOKEN_URL : string := "https://accounts.spotify.com/api/token".
Definition EPISODES_URL : string := "https://api.spotify.com/v1/me/episodes".

Definition get_access_token (client_id client_secret refresh_token : option string)
  : M (option string) :=
  response ← request (Post TOKEN_URL refresh_token client_id client_secret);
  if status_code response =? 200 then
    print TokenObtained;;
    match json response with
    | TokenJson access_token => ret (Some access_token)
    | _ => raise KeyError
    end
  else
    print (TokenFailed (status_code response));;
    print (ResponseText (text response));;
    ret None.

(** The [while url:] loop of [get_saved_episodes].  Every iteration that
    reaches the server takes one pending response, so the loop is written
    by recursion on them; [trace] is the trace so far. *)
Fixpoint fetch_pages (access_token : string) (pending : list response)
    (url : option string) (episodes : list saved_episode) (trace : list event)
  : world * result (list saved_episode) :=
  match url with
  | Some (String c u as url') =>
      let trace := trace ++ [Get url' access_token] in
      match pending with
      | [] => (mk_world [] trace, Raise ConnectionError)
      | response :: pending =>
          if status_code response =? 200 then
            match json response with
            | PageJson items next =>
                fetch_pages access_token pending next (episodes ++ items) trace
            | _ => (mk_world pending trace, Raise KeyError)
            end
          else
            (mk_world pending
               (trace ++ [Print (FetchFailed (status_code response));
                          Print (ResponseText (text response))]),
             Ok episodes)
      end
  | _ => (mk_world pending trace, Ok episodes)
  end.

Definition get_saved_episodes (access_token : string)
  : M (list saved_episode) :=
  episodes ← (λ w, fetch_pages access_token (pending w) (Some EPISODES_URL) []
                     (trace w));
  print (TotalFetched (length episodes));;
  ret episodes.

(** [sorted] on strings. *)
Definition sorted (l : list string) : list string := merge_sort String.le l.

Definition get_unique_authors (episodes : list saved_episode) : list string :=
  let authors : gset string :=
    foldl (λ authors ep, authors ∪ {[ publisher_of ep ]}) ∅ episodes in
  sorted (elements authors).

Definition remove_saved_episode (access_token episode_id : string) : M Z :=
  response ← request (Delete (EPISODES_URL +:+ "?ids=" +:+ episode_id) access_token);
  ret (status_code response).

Definition DATE_ADDED : string := "Date Added to Library".
Definition RELEASE_DATE : string := "Podcast Release Date".

(** The naive datetime an iteration of the filter loop binds to
    [episode_date], with its [date_label].  With any other [date_type]
    neither branch assigns; the loop stops at the first such iteration, so
    no earlier one has bound the variable and the read that follows
    raises. *)
Definition resolve_date (date_type : string) (ep : saved_episode)
  : result (datetime * string) :=
  if decide (date_type = DATE_ADDED) then
    rbind (strptime_timestamp (added_at ep)) (λ d, Ok (d, DATE_ADDED))
  else if decide (date_type = RELEASE_DATE) then
    rbind (strptime_date (release_date (the_episode ep))) (λ d, Ok (d, RELEASE_DATE))
  else Raise UnboundLocalError.

(** [pytz.utc.localize(episode_date).astimezone(local_tz)] *)
Definition to_local (local_tz : tzinfo) (episode_date : datetime) : result aware :=
  rbind (localize UTC episode_date) (λ a, astimezone a local_tz).

(** The [for ep in episodes] loop of [remove_episodes_by_date]. *)
Fixpoint filter_loop (date_type : string) (before_date_obj : aware)
    (local_tz : tzinfo) (selected_authors : list string)
    (episodes filtered_episodes : list saved_episode)
  : M (list saved_episode) :=
  match episodes with
  | [] => ret filtered_episodes
  | ep :: episodes =>
      let episode_title := name (the_episode ep) in
      let podcast_name := show_name (of_show (the_episode ep)) in
      let podcast_author := publisher (of_show (the_episode ep)) in
      if bool_decide (podcast_author ∉ selected_authors) then
        filter_loop date_type before_date_obj local_tz selected_authors
          episodes filtered_episodes
      else
        '(episode_date, date_label) ← lift (resolve_date date_type ep);
        episode_date ← lift (to_local local_tz episode_date);
        if aware_lt episode_date before_date_obj then
          print (WouldRemove episode_title podcast_name podcast_author
                   date_label episode_date);;
          filter_loop date_type before_date_obj local_tz selected_authors
            episodes (filtered_episodes ++ [ep])
        else
          filter_loop date_type before_date_obj local_tz selected_authors
            episodes filtered_episodes
  end.

(** [selected_authors] is [None] (the default) or a list; both [None] and
    the empty list are false. *)
Definition remove_episodes_by_date (episodes : list saved_episode)
    (date_type before_date : string) (local_tz : tzinfo)
    (selected_authors : option (list string)) : M (list saved_episode) :=
  before_date_obj ← lift (strptime_date before_date);
  before_date_obj ← lift (localize local_tz before_date_obj);
  match selected_authors with
  | None | Some [] =>
      print NoAuthorsSelected;;
      ret []
  | Some selected_authors =>
      filtered_episodes ← filter_loop date_type before_date_obj local_tz
                             selected_authors episodes [];
      print (TotalMatching (length filtered_episodes));;
      ret filtered_episodes
  end.

(** The deletion loop of [remove_episodes_based_on_filter]. *)
Fixpoint remove_loop (access_token : string)
    (episodes_to_remove : list saved_episode) : M unit :=
  match episodes_to_remove with
  | [] => ret tt
  | ep :: episodes_to_remove =>
      let episode_id := id (the_episode ep) in
      status ← remove_saved_episode access_token episode_id;
      (if status =? 200 then
         print (Removed (name (the_episode ep))
                  (show_name (of_show (the_episode ep))))
       else
         print (FailedToRemove (name (the_episode ep))
                  (show_name (of_show (the_episode ep)))));;
      remove_loop access_token episodes_to_remove
  end.

(** The three module-level values read from the environment; [os.getenv]
    gives [None] for a variable that is not set. *)
Record config := mk_config {
  CLIENT_ID : option string;
  CLIENT_SECRET : option string;
  REFRESH_TOKEN : option string
}.

(** [episodes_to_remove] is assigned only under [if before_date:]; the
    local is [None] here while it is unbound, and reading it then raises.
    [not test_mode and episodes_to_remove] reads it only when [test_mode]
    is false. *)
Definition remove_episodes_based_on_filter (cfg : config) (test_mode : bool)
    (date_type : string) (before_date : option string) (local_tz : tzinfo)
    (selected_authors : option (list string)) : M unit :=
  access_token ← get_access_token (CLIENT_ID cfg) (CLIENT_SECRET cfg)
                   (REFRESH_TOKEN cfg);
  match access_token with
  | None => print ExitingNoToken
  | Some access_token =>
      episodes ← get_saved_episodes access_token;
      match episodes with
      | [] => print NoEpisodesReturned
      | _ :: _ =>
          episodes_to_remove ←
            match before_date with
            | Some (String _ _ as before_date) =>
                filtered ← remove_episodes_by_date episodes date_type
                             before_date local_tz selected_authors;
                ret (Some filtered)
            | _ => ret None
            end;
          if negb test_mode then
            match episodes_to_remove with
            | None => raise UnboundLocalError
            | Some [] => ret tt
            | Some episodes_to_remove =>
                remove_loop access_token episodes_to_remove
            end
          else ret tt
      end
  end.

(** ** The entry point of the script

    The block under [if __name__ == "__main__"].  The user is taken to
    answer every prompt: the boxes checked in the author prompt and the
    answers to the four questions are arguments.  [pytz.timezone], the
    lookup of a zone name in the tz database, is a parameter. *)

Definition common_timezones : list (string * string) :=
  [("UTC (Coordinated Universal Time)", "UTC");
   ("America/New_York (EST, UTC-5)", "America/New_York");
   ("America/Los_Angeles (PST, UTC-8)", "America/Los_Angeles");
   ("Europe/London (BST, UTC+1)", "Europe/London");
   ("Europe/Paris (CET, UTC+2)", "Europe/Paris");
   ("Asia/Tokyo (JST, UTC+9)", "Asia/Tokyo");
   ("Australia/Sydney (AEST, UTC+10)", "Australia/Sydney");
   ("Asia/Hong_Kong (HKT, UTC+8)", "Asia/Hong_Kong");
   ("Asia/Kolkata (IST, UTC+5:30)", "Asia/Kolkata")].

(** [dict(pairs)]: a later pair replaces an earlier one with the same
    key. *)
Definition dict (pairs : list (string * string)) : gmap string string :=
  foldl (λ d kv, <[kv.1 := kv.2]> d) ∅ pairs.

Definition SELECT_ALL : string := "Select All".

(** [answers] of the second prompt. *)
Record answers := mk_answers {
  ans_date_type : string;     (* ['date_type'] *)
  ans_before_date : string;   (* ['before_date'] *)
  ans_timezone : string;      (* ['timezone'] *)
  ans_test_mode : bool        (* ['test_mode'] *)
}.

(** What the script as a whole leaves on the screen and on the wire: the
    events of the functions it calls, its two prompts with the choices they
    offer, and its own three lines. *)
Inductive script_event :=
  | Call (e : event)
  | AskAuthors (choices : list string)
  | AutoSelectAll
  | AuthFailed
  | AskOptions (date_types timezones : list string)
  | RunningWith (date_type before_date : string) (test_mode : bool)
      (timezone : string) (authors : list string).

Record console := mk_console {
  server : list response;
  screen : list script_event
}.

(** How the script ends: at its last line, by [exit()], or by an error
    that nothing catches. *)
Inductive ending :=
  | Completed
  | Exited
  | Raised (e : exn).

Definition ending_of {A} (r : result A) : ending :=
  match r with Ok _ => Completed | Raise e => Raised e end.

(** A call of one of the functions from the script: it meets the server
    as the script left it, and what it prints and requests goes to the
    screen after what is there. *)
Definition call {A} (m : M A) (c : console) : console * result A :=
  let '(w', r) := m (mk_world (server c) []) in
  (mk_console (pending w') (screen c ++ (Call <$> trace w')), r).

Definition display (e : script_event) (c : console) : console :=
  mk_console (server c) (screen c ++ [e]).

(** The selection made from the boxes checked, [authors] being the author
    list with 'Select All' put in front: all the authors when no box or the
    'Select All' box is checked, the checked ones otherwise; the flag says
    which. *)
Definition selection (authors checked : list string) : list string * bool :=
  if bool_decide (checked = []) || bool_decide (SELECT_ALL ∈ checked)
  then (tail authors, true)
  else (checked, false).

Definition main (cfg : config) (timezone : string → tzinfo)
    (checked : list string) (a : answers) (c : console) : console * ending :=
  let '(c, r) := call (get_access_token (CLIENT_ID cfg) (CLIENT_SECRET cfg)
                         (REFRESH_TOKEN cfg)) c in
  match r with
  | Raise e => (c, Raised e)
  | Ok (Some (String _ _ as access_token)) =>
      let '(c, r) := call (get_saved_episodes access_token) c in
      match r with
      | Raise e => (c, Raised e)
      | Ok episodes =>
          let authors := SELECT_ALL :: get_unique_authors episodes in
          let c := display (AskAuthors authors) c in
          let '(selected_authors, all) := selection authors checked in
          let c := if all then display AutoSelectAll c else c in
          let c := display (AskOptions [DATE_ADDED; RELEASE_DATE]
                           (fst <$> common_timezones)) c in
          match dict common_timezones !! ans_timezone a with
          | None => (c, Raised KeyError)
          | Some zone =>
              let local_tz := timezone zone in
              let c := display (RunningWith (ans_date_type a) (ans_before_date a)
                               (ans_test_mode a) (ans_timezone a)
                               selected_authors) c in
              let '(c, r) :=
                call (remove_episodes_based_on_filter cfg (ans_test_mode a)
                        (ans_date_type a) (Some (ans_before_date a)) local_tz
                        (Some selected_authors)) c in
              (c, ending_of r)
          end
      end
  | Ok _ => (display AuthFailed c, Exited)
  end.

(** A computation whose course does not depend on what is already in the
    trace: it only adds to it. *)
Definition trace_blind {A} (m : M A) : Prop :=
  ∀ p tr, m (mk_world p tr)
          = (mk_world (pending (m (mk_world p [])).1)
               (tr ++ trace (m (mk_world p [])).1),
             (m (mk_world p [])).2).

(** ** Vocabulary of the statements *)

(** The date the filter compares for [ep]: the selected field, parsed,
    taken as UTC and shown on [tz]'s wall clock. *)
Definition converted (date_type : string) (tz : tzinfo) (ep : saved_episode)
  : result aware :=
  rbind (resolve_date date_type ep) (λ p, to_local tz p.1).

(** The test an episode passes to be put in the result. *)
Definition keep (date_type : string) (cutoff : aware) (tz : tzinfo)
    (authors : list string) (ep : saved_episode) : bool :=
  bool_decide (publisher_of ep ∈ authors)
  && match converted date_type tz ep with
     | Ok t => aware_lt t cutoff
     | Raise _ => false
     end.

(** The filter reaches the date of [ep] only when its publisher is
    selected; [ep] is harmless when that date can then be computed. *)
Definition harmless (date_type : string) (tz : tzinfo) (authors : list string)
    (ep : saved_episode) : Prop :=
  publisher_of ep ∈ authors → is_ok (converted date_type tz ep).

(** The string YYYY-MM-DD of a day, zero-padded ([date.isoformat]). *)
Definition digit_char (n : Z) : ascii := ascii_of_N (Z.to_N (48 + n)).

Definition isoformat (d : datetime) : string :=
  String (digit_char (year d / 1000))
 (String (digit_char (year d / 100 mod 10))
 (String (digit_char (year d / 10 mod 10))
 (String (digit_char (year d mod 10))
 (String "-"
 (String (digit_char (month d / 10))
 (String (digit_char (month d mod 10))
 (String "-"
 (String (digit_char (day d / 10))
 (String (digit_char (day d mod 10)) ""))))))))).

(** The episode of the worked example: saved at the stroke of the new
    year, UTC. *)
Definition new_year_episode : saved_episode :=
  mk_saved "2023-01-01T00:00:00Z"
    (mk_episode "4rOoJ6Egrf8K2IrywzwOMk" "Episode 12" "2023-01-01"
       (mk_show "A Show" "A Publisher")).

(** A world with a silent console and no server. *)
Definition offline : world := mk_world [] [].

(** A page of the listing that is followed by another one: status 200 and
    a next link that is a non-empty string. *)
Definition has_next (r : response) : Prop :=
  status_code r = 200
  ∧ ∃ items c url, json r = PageJson items (Some (String c url)).

Definition items_of (r : response) : list saved_episode :=
  match json r with
  | PageJson items _ => items
  | _ => []
  end.

(** What one deletion leaves in the trace: the request, then the line
    printed for the status [r] answers with. *)
Definition delete_url (ep : saved_episode) : string :=
  EPISODES_URL +:+ "?ids=" +:+ id (the_episode ep).

Definition deletion (access_token : string) (ep : saved_episode) (r : response)
  : list event :=
  [Delete (delete_url ep) access_token;
   Print (if status_code r =? 200
          then Removed (name (the_episode ep)) (show_name (of_show (the_episode ep)))
          else FailedToRemove (name (the_episode ep))
                 (show_name (of_show (the_episode ep))))].

(** The deletion requests, the successes and the failures in a trace. *)
Definition deletions (tr : list event) : list string :=
  omap (λ e, match e with Delete url _ => Some url | _ => None end) tr.

Definition is_success (e : event) : bool :=
  match e with Print (Removed _ _) => true | _ => false end.

Definition is_failure (e : event) : bool :=
  match e with Print (FailedToRemove _ _) => true | _ => false end.

Definition successes (tr : list event) : nat :=
  length (filter (λ e, is_success e) tr).

Definition failures (tr : list event) : nat :=
  length (filter (λ e, is_failure e) tr).

(** A run against a scripted server: the token, one page of three saved
    episodes, then the answers to three deletions, the second one a
    failure. *)
Definition credentials : config :=
  mk_config (Some "client") (Some "secret") (Some "refresh").

Definition saved_in_2022 (n : string) : saved_episode :=
  mk_saved "2022-06-01T12:00:00Z"
    (mk_episode n ("Episode " +:+ n) "2022-05-30" (mk_show "A Show" "A Publisher")).

Definition three_saved : list saved_episode :=
  [saved_in_2022 "1"; saved_in_2022 "2"; saved_in_2022 "3"].

Definition scripted_server : world :=
  mk_world
    [mk_response 200 "" (TokenJson "token");
     mk_response 200 "" (PageJson three_saved None);
     mk_response 200 "" OtherJson;
     mk_response 500 "Server error" OtherJson;
     mk_response 200 "" OtherJson]
    [].

(** The line the filter prints when it keeps [ep]: title, show,
    publisher, the label of the selected date and the converted date. *)
Definition would_remove (date_type : string) (tz : tzinfo) (ep : saved_episode)
  : option event :=
  match resolve_date date_type ep with
  | Ok (d, date_label) =>
      match to_local tz d with
      | Ok t =>
          Some (Print (WouldRemove (name (the_episode ep))
                         (show_name (of_show (the_episode ep)))
                         (publisher (of_show (the_episode ep))) date_label t))
      | Raise _ => None
      end
  | Raise _ => None
  end.

(** The requests of any kind in a trace. *)
Definition is_request (e : event) : bool :=
  match e with Print _ => false | _ => true end.

(** The link a page gives to the page after it. *)
Definition next_of (r : response) : option string :=
  match json r with
  | PageJson _ next => next
  | _ => None
  end.

(** The last page of a listing: status 200, and a next link that is null
    or the empty string. *)
Definition is_last (r : response) : Prop :=
  status_code r = 200
  ∧ ∃ items, json r = PageJson items None ∨ json r = PageJson items (Some "").

(** A computation that sends no deletion, whatever the world and however
    it ends. *)
Definition deletes_nothing {A} (m : M A) : Prop :=
  ∀ w w' r, m w = (w', r) → deletions (trace w') = deletions (trace w).

(** An event the fetch may leave in the trace: a printed line, or a GET
    carrying the bearer token. *)
Definition print_or_get (access_token : string) (e : event) : Prop :=
  match e with
  | Print _ => True
  | Get _ bearer => bearer = access_token
  | _ => False
  end.

(** An event of the deletion loop: a DELETE, or the line printed for its
    outcome. *)
Definition deletion_event (e : event) : Prop :=
  match e with
  | Delete _ _ | Print (Removed _ _) | Print (FailedToRemove _ _) => True
  | _ => False
  end.

(** ** Properties *)

(** *** The parser on sample strings *)

Example strptime_date_plain :
  strptime_date "2023-01-01" = Ok (mk_datetime 2023 1 1 0 0 0).
Proof. reflexivity. Qed.
Example strptime_date_short_fields :
  strptime_date "2023-1-5" = Ok (mk_datetime 2023 1 5 0 0 0).
Proof. reflexivity. Qed.
Example strptime_date_space_day :
  strptime_date "2023-01- 5" = Ok (mk_datetime 2023 1 5 0 0 0).
Proof. reflexivity. Qed.
Example strptime_date_rejects :
  Forall (λ s, strptime_date s = Raise ValueError)
    ["2023-01-05 "; " 2023-01-05"; "0000-01-01"; "2023-02-30"; "2023-13-01";
     "2023-01-011"; "02023-01-01"; "2023-00-10"; "2023-10-0"; "2023-01-32";
     "2023-01-3x"; ""; "yesterday"].
Proof. repeat constructor. Qed.
Example strptime_timestamp_plain :
  strptime_timestamp "2023-01-01T00:00:00Z" = Ok (mk_datetime 2023 1 1 0 0 0).
Proof. reflexivity. Qed.
Example strptime_timestamp_lower :
  strptime_timestamp "2023-1-1t1:2:3z" = Ok (mk_datetime 2023 1 1 1 2 3).
Proof. reflexivity. Qed.
Example strptime_timestamp_rejects :
  Forall (λ s, strptime_timestamp s = Raise ValueError)
    ["2023-01-01T24:00:00Z"; "2023-01-01T23:59:60Z"; "2023-01-01T23:59:61Z";
     "2023-01-01T23:60:00Z"; "2023-01-01T00:00:00.5Z"; "2023-01-01T00:00:00";
     "2023-01-01"].
Proof. repeat constructor. Qed.
Example ordinals :
  ymd2ord 9999 12 31 = 3652059 ∧ ymd2ord 2023 1 1 = 738521.
Proof. split; reflexivity. Qed.

Ltac unfold_M :=
  unfold mbind, M_bind, mret, M_ret, bind, ret, raise, lift, print, emit in *.

(** *** Every YYYY-MM-DD string of a calendar day is accepted *)

Lemma digit_digit_char k : 0 ≤ k ≤ 9 → digit (digit_char k) = Some k.
Proof.
  intros Hk.
  assert (k = 0 ∨ k = 1 ∨ k = 2 ∨ k = 3 ∨ k = 4 ∨ k = 5 ∨ k = 6 ∨ k = 7
          ∨ k = 8 ∨ k = 9) as Hcases by lia.
  repeat destruct Hcases as [-> | Hcases]; try reflexivity.
  by subst.
Qed.

Lemma dir_Y_digits a b c d rest :
  0 ≤ a ≤ 9 → 0 ≤ b ≤ 9 → 0 ≤ c ≤ 9 → 0 ≤ d ≤ 9 →
  dir_Y (String (digit_char a) (String (digit_char b)
          (String (digit_char c) (String (digit_char d) rest))))
  = Some (1000 * a + 100 * b + 10 * c + d, rest).
Proof.
  intros. unfold dir_Y. by rewrite !digit_digit_char by done.
Qed.

Lemma two_or_one_digits lo2 hi2 lo1 a b rest :
  0 ≤ a ≤ 9 → 0 ≤ b ≤ 9 → lo2 ≤ 10 * a + b ≤ hi2 →
  two_or_one lo2 hi2 lo1 (String (digit_char a) (String (digit_char b) rest))
  = Some (10 * a + b, rest).
Proof.
  intros Ha Hb Hv. unfold two_or_one. rewrite !digit_digit_char by done.
  destruct (Z.leb_spec lo2 (10 * a + b)); [|lia].
  destruct (Z.leb_spec (10 * a + b) hi2); [done|lia].
Qed.

Lemma dir_d_digits a b rest :
  0 ≤ a ≤ 9 → 0 ≤ b ≤ 9 → 1 ≤ 10 * a + b ≤ 31 →
  dir_d (String (digit_char a) (String (digit_char b) rest))
  = Some (10 * a + b, rest).
Proof.
  intros Ha Hb Hv.
  rewrite <- (two_or_one_digits 1 31 1 a b rest Ha Hb Hv).
  assert (a = 0 ∨ a = 1 ∨ a = 2 ∨ a = 3) as Hcases by lia.
  by repeat destruct Hcases as [-> | Hcases]; subst.
Qed.

Lemma lit_same c rest : lit c (String c rest) = Some rest.
Proof. unfold lit. by rewrite N.eqb_refl. Qed.

Lemma days_in_month_le y m : 1 ≤ m ≤ 12 → days_in_month y m ≤ 31.
Proof.
  intros Hm. unfold days_in_month.
  assert (m = 1 ∨ m = 2 ∨ m = 3 ∨ m = 4 ∨ m = 5 ∨ m = 6 ∨ m = 7 ∨ m = 8
          ∨ m = 9 ∨ m = 10 ∨ m = 11 ∨ m = 12) as Hcases by lia.
  repeat destruct Hcases as [-> | Hcases]; subst; simpl;
    try destruct (is_leap y); simpl; lia.
Qed.

Lemma strptime_date_isoformat d :
  check_fields d = Ok d → hour d = 0 → minute d = 0 → second d = 0 →
  strptime_date (isoformat d) = Ok d.
Proof.
  intros Hchk Hh Hm Hs. pose proof Hchk as Hok.
  unfold check_fields in Hok. case_match eqn:Hb; [|done]. clear Hok.
  repeat (apply andb_prop in Hb as [Hb ?]).
  unfold MINYEAR, MAXYEAR in *.
  repeat match goal with
         | H : (_ <=? _) = true |- _ => apply Z.leb_le in H
         end.
  pose proof (days_in_month_le (year d) (month d) ltac:(lia)).
  unfold strptime_date, match_date, isoformat, dir_m.
  rewrite dir_Y_digits by (Z.div_mod_to_equations; lia).
  unfold mbind, option_bind. cbn beta iota.
  rewrite lit_same. cbn beta iota.
  rewrite two_or_one_digits by (Z.div_mod_to_equations; lia).
  cbn beta iota. rewrite lit_same. cbn beta iota.
  rewrite dir_d_digits by (Z.div_mod_to_equations; lia).
  cbn beta iota.
  replace (1000 * (year d / 1000) + 100 * (year d / 100 mod 10)
           + 10 * (year d / 10 mod 10) + year d mod 10) with (year d)
    by (Z.div_mod_to_equations; lia).
  rewrite <- !Z.div_mod by lia.
  destruct d as [y m dd hh mm ss]; simpl in *; subst. exact Hchk.
Qed.

Section Date_filter.

Variables (date_type : string) (cutoff : aware) (tz : tzinfo)
          (authors : list string).

Lemma keep_unselected ep :
  publisher_of ep ∉ authors → keep date_type cutoff tz authors ep = false.
Proof. intros H. unfold keep. by rewrite bool_decide_eq_false_2. Qed.

Lemma keep_selected ep t :
  publisher_of ep ∈ authors → converted date_type tz ep = Ok t →
  keep date_type cutoff tz authors ep = aware_lt t cutoff.
Proof. intros H Ht. unfold keep. by rewrite bool_decide_eq_true_2, Ht. Qed.

Lemma filter_loop_returns episodes : ∀ filtered w,
  Forall (harmless date_type tz authors) episodes →
  ∃ w', filter_loop date_type cutoff tz authors episodes filtered w
        = (w', Ok (filtered ++ filter (λ ep, keep date_type cutoff tz authors ep) episodes))
        ∧ pending w' = pending w.
Proof.
  induction episodes as [|ep eps IH]; intros acc w Hall; simpl.
  - exists w. unfold_M. by rewrite app_nil_r.
  - apply Forall_cons in Hall as [Hep Hall].
    case_bool_decide as Hnot.
    + rewrite filter_cons_False; [by apply IH|].
      rewrite keep_unselected by done. by intros [].
    + assert (Hin : publisher_of ep ∈ authors)
        by (destruct (decide (publisher_of ep ∈ authors)); tauto).
      specialize (Hep Hin).
      destruct (converted date_type tz ep) as [t|e] eqn:Hconv; [|done].
      pose proof (keep_selected ep t Hin Hconv) as Hkeep.
      unfold converted in Hconv. unfold_M.
      destruct (resolve_date date_type ep) as [[d lbl]|e]; simpl in *; [|done].
      rewrite Hconv.
      destruct (aware_lt t cutoff) eqn:Hlt.
      * rewrite filter_cons_True by (rewrite Hkeep; exact I).
        destruct (IH (acc ++ [ep]) (mk_world (pending w)
                    (trace w ++ [Print (WouldRemove (name (the_episode ep))
                       (show_name (of_show (the_episode ep)))
                       (publisher (of_show (the_episode ep))) lbl t)])) Hall)
          as (w' & Heq & Hp).
        exists w'. rewrite Heq, <- app_assoc. done.
      * rewrite filter_cons_False by (rewrite Hkeep; by intros []).
        by apply IH.
Qed.

Lemma filter_loop_harmless episodes : ∀ filtered w w' res,
  filter_loop date_type cutoff tz authors episodes filtered w = (w', Ok res) →
  Forall (harmless date_type tz authors) episodes.
Proof.
  induction episodes as [|ep eps IH]; intros acc w w' res Hrun; simpl in *.
  - constructor.
  - case_bool_decide as Hnot.
    + constructor; [|by eapply IH]. intros Hin. by destruct Hnot.
    + unfold_M.
      destruct (resolve_date date_type ep) as [[d lbl]|e] eqn:Hres;
        simpl in *; [|done].
      destruct (to_local tz d) as [t|e] eqn:Ht; simpl in *; [|done].
      constructor.
      * intros _. unfold converted. by rewrite Hres; simpl; rewrite Ht.
      * destruct (aware_lt t cutoff); by eapply IH.
Qed.

End Date_filter.

(** What [remove_episodes_by_date] returns once the cutoff is parsed and
    localized and some author is selected. *)
Lemma remove_episodes_by_date_returns episodes date_type before_date tz
    authors day cutoff w :
  strptime_date before_date = Ok day →
  localize tz day = Ok cutoff →
  authors ≠ [] →
  Forall (harmless date_type tz authors) episodes →
  ∃ w', remove_episodes_by_date episodes date_type before_date tz (Some authors) w
        = (w', Ok (filter (λ ep, keep date_type cutoff tz authors ep) episodes))
        ∧ pending w' = pending w.
Proof.
  intros Hday Hcut Hne Hall.
  unfold remove_episodes_by_date. unfold_M. rewrite Hday, Hcut.
  destruct authors as [|a authors']; [done|].
  destruct (filter_loop_returns date_type cutoff tz (a :: authors') episodes [] w Hall)
    as (w1 & Heq & Hp).
  rewrite Heq. simpl. eexists; split; [done|]. done.
Qed.

Lemma remove_episodes_by_date_inv episodes date_type before_date tz sel w w' res :
  remove_episodes_by_date episodes date_type before_date tz sel w = (w', Ok res) →
  ∃ day cutoff,
    strptime_date before_date = Ok day ∧ localize tz day = Ok cutoff ∧
    ((sel = None ∨ sel = Some []) ∧ res = []
     ∨ ∃ authors, sel = Some authors ∧ authors ≠ [] ∧
         Forall (harmless date_type tz authors) episodes ∧
         res = filter (λ ep, keep date_type cutoff tz authors ep) episodes).
Proof.
  unfold remove_episodes_by_date. unfold_M. intros Hrun.
  destruct (strptime_date before_date) as [day|e] eqn:Hday; [|done].
  destruct (localize tz day) as [cutoff|e] eqn:Hcut; [|done].
  exists day, cutoff. split; [done|]. split; [done|].
  destruct sel as [[|a authors']|].
  - left. split; [by right|]. by inversion Hrun.
  - right. exists (a :: authors'). split; [done|]. split; [done|].
    destruct (filter_loop date_type cutoff tz (a :: authors') episodes [] w)
      as [w1 [l|e]] eqn:Hloop; [|done].
    pose proof (filter_loop_harmless _ _ _ _ _ _ _ _ _ Hloop) as Hall.
    split; [done|].
    destruct (filter_loop_returns date_type cutoff tz (a :: authors') episodes [] w Hall)
      as (w2 & Heq & _).
    rewrite Hloop in Heq. by simplify_eq/=.
  - left. split; [by left|]. by inversion Hrun.
Qed.



(** C1. With the selector 'Date Added to Library', once the cutoff parses
    and can be localized and some author is selected: the call returns
    whenever the dates of the selected episodes can be computed, and in the
    list it returns an episode with a selected publisher is present exactly
    when its [added_at], parsed, taken as UTC and converted to the target
    timezone, is strictly earlier than midnight of the cutoff day in that
    timezone. *)
Theorem added_date_inclusion episodes tz before_date authors cutoff_day cutoff w :
  strptime_date before_date = Ok cutoff_day →
  localize tz cutoff_day = Ok cutoff →
  authors ≠ [] →
  let run := remove_episodes_by_date episodes DATE_ADDED before_date tz
               (Some authors) w in
  (Forall (harmless DATE_ADDED tz authors) episodes → is_ok run.2)
  ∧ (∀ res, run.2 = Ok res →
       ∀ ep, ep ∈ episodes → publisher_of ep ∈ authors →
         ∃ parsed t,
           strptime_timestamp (added_at ep) = Ok parsed
           ∧ astimezone (mk_aware (seconds_of parsed) 0) tz = Ok t
           ∧ (ep ∈ res ↔ instant t < instant cutoff)).
Proof.
  intros Hday Hcut Hne run. split.
  - intros Hall.
    destruct (remove_episodes_by_date_returns episodes DATE_ADDED before_date tz
                authors cutoff_day cutoff w Hday Hcut Hne Hall) as (w' & Heq & _).
    subst run. by rewrite Heq.
  - intros res Hres ep Hep Hpub. subst run.
    destruct (remove_episodes_by_date _ _ _ _ _ w) as [w' r] eqn:Hrun.
    simpl in Hres. subst r.
    apply remove_episodes_by_date_inv in Hrun
      as (day' & cutoff' & Hday' & Hcut' & [[[?|?] _]|(a & [= <-] & _ & Hall & ->)]);
      [done | by simplify_eq | ].
    rewrite Hday in Hday'. injection Hday' as <-.
    rewrite Hcut in Hcut'. injection Hcut' as <-.
    pose proof (proj1 (Forall_forall _ _) Hall ep Hep Hpub) as Hok.
    destruct (converted DATE_ADDED tz ep) as [t|e] eqn:Hconv; [|done].
    pose proof (keep_selected DATE_ADDED cutoff tz authors ep t Hpub Hconv) as Hkeep.
    unfold converted, resolve_date in Hconv.
    rewrite decide_True in Hconv by done.
    destruct (strptime_timestamp (added_at ep)) as [parsed|e]; [|done].
    exists parsed, t. split; [done|]. split; [exact Hconv|].
    rewrite list_elem_of_filter, Hkeep. unfold aware_lt.
    rewrite Is_true_true, Z.ltb_lt. tauto.
Qed.

(** The worked example of C1: saved at 2023-01-01T00:00:00Z, cutoff
    2023-01-01, America/Los_Angeles; the episode is in the result. *)
Lemma added_date_inclusion_new_year :
  ∃ res,
    (remove_episodes_by_date [new_year_episode] DATE_ADDED "2023-01-01"
       America_Los_Angeles (Some ["A Publisher"]) offline).2 = Ok res
    ∧ new_year_episode ∈ res.
Proof.
  eexists. split; [vm_compute; reflexivity|].
  pose proof (added_date_inclusion [new_year_episode] America_Los_Angeles
                "2023-01-01" ["A Publisher"] _ _ offline
                eq_refl eq_refl ltac:(discriminate)) as [_ H].
  destruct (H _ eq_refl new_year_episode ltac:(by left) ltac:(by left))
    as (parsed & t & Hp & Ht & Hiff).
  injection Hp as <-.
  vm_compute in Ht. injection Ht as <-.
  vm_compute in Hiff. apply (proj2 Hiff). reflexivity.
Defined.










Section Timezones.

Variable tz : tzinfo.

Lemma add_seconds_ok s delta r : add_seconds s delta = Ok r → r = s + delta.
Proof. unfold add_seconds. case_match; [|done]. by intros [= <-]. Qed.

Lemma astimezone_instant a t : astimezone a tz = Ok t → instant t = instant a.
Proof.
  unfold astimezone. destruct tz as [|o|f g]; simpl.
  - intros [= <-]. unfold instant; simpl. lia.
  - destruct (add_seconds _ _) as [r|] eqn:Hr; [|done]. intros [= <-].
    apply add_seconds_ok in Hr. unfold instant in *; simpl. lia.
  - destruct (add_seconds _ _) as [r|] eqn:Hr; [|done]. intros [= <-].
    apply add_seconds_ok in Hr. unfold instant in *; simpl. lia.
Qed.



Lemma localize_wall d c : localize tz d = Ok c → wall c = seconds_of d.
Proof.
  unfold localize. destruct tz as [|o|f g]; simpl; try by intros [= <-].
  destruct (add_seconds _ _); [|done]. simpl.
  destruct (add_seconds _ _); [|done]. simpl. by intros [= <-].
Qed.

Lemma localize_returns d :
  MIN_SECONDS + 86400 ≤ seconds_of d ≤ MAX_SECONDS - 86400 →
  is_ok (localize tz d).
Proof.
  intros Hrange. unfold localize, add_seconds. destruct tz as [|o|f g]; [done..|].
  destruct (Z.leb_spec MIN_SECONDS (seconds_of d + -86400)); [|lia].
  destruct (Z.leb_spec (seconds_of d + -86400) MAX_SECONDS); [|lia].
  destruct (Z.leb_spec MIN_SECONDS (seconds_of d + 86400)); [|lia].
  destruct (Z.leb_spec (seconds_of d + 86400) MAX_SECONDS); [done|lia].
Qed.


End Timezones.





Lemma fetch_pages_stops access_token bad rest pages :
  status_code bad ≠ 200 →
  Forall has_next pages →
  ∀ c url episodes tr,
    ∃ tr',
      fetch_pages access_token (pages ++ bad :: rest) (Some (String c url))
        episodes tr
      = (mk_world rest
           (tr' ++ [Print (FetchFailed (status_code bad));
                    Print (ResponseText (text bad))]),
         Ok (episodes ++ concat (items_of <$> pages))).
Proof.
  intros Hbad. induction 1 as [|p pages Hp _ IH]; intros c url episodes tr.
  - simpl. apply Z.eqb_neq in Hbad. rewrite Hbad, app_nil_r. by eexists.
  - destruct Hp as (H200 & items & c' & url' & Hjson).
    cbn [fetch_pages app]. rewrite H200, Hjson. cbn [Z.eqb Pos.eqb].
    destruct (IH c' url' (episodes ++ items)
                (tr ++ [Get (String c url) access_token])) as (tr' & ->).
    exists tr'. rewrite fmap_cons, concat_cons, app_assoc.
    replace (items_of p) with items by (unfold items_of; by rewrite Hjson).
    done.
Qed.

(** C6. When the server answers some pages with 200 and a next link and
    then answers with another status, [get_saved_episodes] stops there and
    returns, without raising, the items of the pages before, in order; the
    responses after the failed one are never requested.  With one page
    before the failure (page 2 of 3 fails) the result is the items of
    page 1. *)
Theorem partial_fetch access_token pages bad rest tr :
  Forall has_next pages →
  status_code bad ≠ 200 →
  ∃ tr',
    get_saved_episodes access_token (mk_world (pages ++ bad :: rest) tr)
    = (mk_world rest tr', Ok (concat (items_of <$> pages)))
    ∧ (∀ page1 page3, pages = [page1] → rest = [page3] →
         get_saved_episodes access_token (mk_world [page1; bad; page3] tr)
         = (mk_world [page3] tr', Ok (items_of page1))).
Proof.
  intros Hpages Hbad.
  destruct (fetch_pages_stops access_token bad rest pages Hbad Hpages
              "h" "ttps://api.spotify.com/v1/me/episodes" [] tr) as (tr' & Heq).
  eexists. split.
  - unfold get_saved_episodes. unfold_M. cbn [pending trace].
    change (Some EPISODES_URL)
      with (Some (String "h" "ttps://api.spotify.com/v1/me/episodes")).
    rewrite Heq. cbn [pending trace app]. reflexivity.
  - intros page1 page3 -> ->.
    unfold get_saved_episodes. unfold_M. cbn [pending trace].
    change (Some EPISODES_URL)
      with (Some (String "h" "ttps://api.spotify.com/v1/me/episodes")).
    change [page1; bad; page3] with ([page1] ++ bad :: [page3]).
    rewrite Heq. cbn [pending trace app fmap list_fmap concat].
    by rewrite app_nil_r.
Qed.

(** Page 1 with two items and a next link, a failure on page 2, and a
    third page that is never asked for. *)
Lemma partial_fetch_page_2_of_3 :
  let page1 := mk_response 200 "" (PageJson [new_year_episode; new_year_episode]
                                     (Some "https://api.spotify.com/v1/me/episodes?offset=2")) in
  let page2 := mk_response 502 "Bad gateway" OtherJson in
  let page3 := mk_response 200 "" (PageJson [new_year_episode] None) in
  ∃ tr', get_saved_episodes "token" (mk_world [page1; page2; page3] [])
         = (mk_world [page3] tr', Ok [new_year_episode; new_year_episode]).
Proof.
  intros page1 page2 page3.
  destruct (partial_fetch "token" [page1] page2 [page3] []) as (tr' & _ & H).
  - constructor; [|constructor]. split; [reflexivity|]. by eexists _, _, _.
  - discriminate.
  - exists tr'. exact (H page1 page3 eq_refl eq_refl).
Defined.

Section Deletions.

Variable access_token : string.

Lemma remove_loop_trace episodes : ∀ responses rest tr,
  length responses = length episodes →
  remove_loop access_token episodes (mk_world (responses ++ rest) tr)
  = (mk_world rest
       (tr ++ concat (zip_with (deletion access_token) episodes responses)),
     Ok tt).
Proof.
  induction episodes as [|ep eps IH]; intros [|r rs] rest tr Hlen;
    simplify_eq/=.
  - unfold_M. by rewrite app_nil_r.
  - unfold remove_saved_episode, request. unfold_M. cbn [pending trace].
    destruct (status_code r =? 200); cbn [pending trace];
      rewrite IH by done; by rewrite <- !app_assoc.
Qed.

Lemma deletions_trace episodes : ∀ responses,
  length responses = length episodes →
  deletions (concat (zip_with (deletion access_token) episodes responses))
  = delete_url <$> episodes.
Proof.
  induction episodes as [|ep eps IH]; intros [|r rs] Hlen; simplify_eq/=;
    [done|].
  unfold deletions in *. cbn. by rewrite IH.
Qed.

Lemma successes_trace episodes : ∀ responses,
  length responses = length episodes →
  successes (concat (zip_with (deletion access_token) episodes responses))
  = length (filter (λ r, status_code r = 200) responses).
Proof.
  induction episodes as [|ep eps IH]; intros [|r rs] Hlen; simplify_eq/=;
    [done|].
  unfold successes in *. rewrite filter_cons_False by (by intros []).
  destruct (Z.eqb_spec (status_code r) 200) as [Heq|Hne].
  - rewrite filter_cons_True by exact I.
    rewrite (filter_cons_True _ r) by done. simpl. by rewrite IH.
  - rewrite filter_cons_False by (by intros []).
    rewrite (filter_cons_False _ r) by done. by rewrite IH.
Qed.

Lemma failures_trace episodes : ∀ responses,
  length responses = length episodes →
  failures (concat (zip_with (deletion access_token) episodes responses))
  = length (filter (λ r, status_code r ≠ 200) responses).
Proof.
  induction episodes as [|ep eps IH]; intros [|r rs] Hlen; simplify_eq/=;
    [done|].
  unfold failures in *. rewrite filter_cons_False by (by intros []).
  destruct (Z.eqb_spec (status_code r) 200) as [Heq|Hne].
  - rewrite filter_cons_False by (by intros []).
    rewrite (filter_cons_False _ r) by (by intros []). by rewrite IH.
  - rewrite filter_cons_True by exact I.
    rewrite (filter_cons_True _ r) by done. simpl. by rewrite IH.
Qed.

End Deletions.

Section Orchestrator.

Variables (cfg : config) (date_type : string) (tz : tzinfo)
          (sel : option (list string)).
Variables (w w1 w2 : world) (access_token : string)
          (episodes : list saved_episode).

Hypothesis token_ok :
  get_access_token (CLIENT_ID cfg) (CLIENT_SECRET cfg) (REFRESH_TOKEN cfg) w
  = (w1, Ok (Some access_token)).
Hypothesis fetched : get_saved_episodes access_token w1 = (w2, Ok episodes).
Hypothesis some_fetched : episodes ≠ [].

Lemma live_run_deletes before_date w3 to_remove responses rest :
  before_date ≠ "" →
  remove_episodes_by_date episodes date_type before_date tz sel w2
    = (w3, Ok to_remove) →
  pending w3 = responses ++ rest →
  length responses = length to_remove →
  remove_episodes_based_on_filter cfg false date_type (Some before_date) tz
    sel w
  = (mk_world rest
       (trace w3 ++ concat (zip_with (deletion access_token) to_remove responses)),
     Ok tt).
Proof using token_ok fetched some_fetched.
  intros Hdate Hfilter Hpending Hlen.
  unfold remove_episodes_based_on_filter. unfold_M.
  rewrite token_ok, fetched.
  destruct episodes as [|ep0 eps0]; [done|].
  destruct before_date as [|c s]; [done|].
  rewrite Hfilter. cbn [negb].
  destruct to_remove as [|ep eps].
  - destruct responses; [|done]. simpl in *. rewrite app_nil_r.
    destruct w3; simpl in *. by subst.
  - destruct w3 as [p3 t3]; simpl in Hpending; subst p3.
    by rewrite remove_loop_trace.
Qed.

Lemma unbound_without_cutoff before_date test_mode :
  before_date = None ∨ before_date = Some "" →
  remove_episodes_based_on_filter cfg test_mode date_type before_date tz sel w
  = (w2, if test_mode then Ok tt else Raise UnboundLocalError).
Proof using token_ok fetched some_fetched.
  intros Hdate.
  unfold remove_episodes_based_on_filter. unfold_M.
  rewrite token_ok, fetched.
  destruct episodes as [|ep0 eps0]; [done|].
  by destruct Hdate as [-> | ->], test_mode.
Qed.

End Orchestrator.

(** C7. In a live run ([test_mode] false) in which the token was obtained,
    episodes were fetched and the filter returned [to_remove], if the
    server answers each deletion, whatever the status: one deletion
    request is made for every episode of [to_remove], in order; every
    answer with status 200 is logged as a success and every other one as a
    failure; the run ends normally. *)
Theorem every_deletion_attempted cfg date_type before_date tz sel w w1 w2 w3
    access_token episodes to_remove responses rest :
  get_access_token (CLIENT_ID cfg) (CLIENT_SECRET cfg) (REFRESH_TOKEN cfg) w
    = (w1, Ok (Some access_token)) →
  get_saved_episodes access_token w1 = (w2, Ok episodes) →
  episodes ≠ [] →
  before_date ≠ "" →
  remove_episodes_by_date episodes date_type before_date tz sel w2
    = (w3, Ok to_remove) →
  pending w3 = responses ++ rest →
  length responses = length to_remove →
  ∃ tr,
    remove_episodes_based_on_filter cfg false date_type (Some before_date) tz
      sel w
    = (mk_world rest (trace w3 ++ tr), Ok tt)
    ∧ deletions tr = delete_url <$> to_remove
    ∧ successes tr = length (filter (λ r, status_code r = 200) responses)
    ∧ failures tr = length (filter (λ r, status_code r ≠ 200) responses).
Proof.
  intros Htoken Hfetch Hsome Hdate Hfilter Hpending Hlen.
  exists (concat (zip_with (deletion access_token) to_remove responses)).
  split; [by eapply live_run_deletes|].
  split; [by apply deletions_trace|].
  split; [by apply successes_trace | by apply failures_trace].
Qed.

(** C10. Once the token is obtained and at least one episode is fetched, a
    call with a cutoff that is [None] or empty reads [episodes_to_remove]
    unbound and raises when [test_mode] is false, and returns normally when
    [test_mode] is true; either way nothing is filtered or deleted: the
    world is the one the fetch left. *)
Theorem unbound_episodes_to_remove cfg date_type before_date tz sel w w1 w2
    access_token episodes :
  get_access_token (CLIENT_ID cfg) (CLIENT_SECRET cfg) (REFRESH_TOKEN cfg) w
    = (w1, Ok (Some access_token)) →
  get_saved_episodes access_token w1 = (w2, Ok episodes) →
  episodes ≠ [] →
  before_date = None ∨ before_date = Some "" →
  remove_episodes_based_on_filter cfg false date_type before_date tz sel w
    = (w2, Raise UnboundLocalError)
  ∧ remove_episodes_based_on_filter cfg true date_type before_date tz sel w
    = (w2, Ok tt).
Proof.
  intros Htoken Hfetch Hsome Hdate. split.
  - by rewrite (unbound_without_cutoff cfg date_type tz sel w w1 w2
                  access_token episodes Htoken Hfetch Hsome before_date false).
  - by rewrite (unbound_without_cutoff cfg date_type tz sel w w1 w2
                  access_token episodes Htoken Hfetch Hsome before_date true).
Qed.

(** Three selected episodes, the second deletion answered with 500: three
    requests, two successes, one failure. *)
Lemma every_deletion_attempted_three :
  ∃ tr0 tr,
    remove_episodes_based_on_filter credentials false DATE_ADDED
      (Some "2023-01-01") UTC (Some ["A Publisher"]) scripted_server
    = (mk_world [] (tr0 ++ tr), Ok tt)
    ∧ deletions tr = delete_url <$> three_saved
    ∧ successes tr = 2%nat
    ∧ failures tr = 1%nat.
Proof.
  pose (r1 := get_access_token (CLIENT_ID credentials) (CLIENT_SECRET credentials)
                (REFRESH_TOKEN credentials) scripted_server).
  pose (r2 := get_saved_episodes "token" r1.1).
  pose (r3 := remove_episodes_by_date three_saved DATE_ADDED "2023-01-01" UTC
                (Some ["A Publisher"]) r2.1).
  destruct (every_deletion_attempted credentials DATE_ADDED "2023-01-01" UTC
              (Some ["A Publisher"]) scripted_server r1.1 r2.1 r3.1 "token"
              three_saved three_saved
              [mk_response 200 "" OtherJson;
               mk_response 500 "Server error" OtherJson;
               mk_response 200 "" OtherJson] [])
    as (tr & Hrun & Hdel & Hok & Hko);
    [vm_compute; reflexivity | vm_compute; reflexivity | discriminate
    | discriminate | vm_compute; reflexivity | vm_compute; reflexivity
    | reflexivity | ].
  exists (trace r3.1), tr. split; [exact Hrun|]. split; [exact Hdel|].
  split; [exact Hok | exact Hko].
Defined.

Lemma unbound_episodes_to_remove_scripted :
  ∃ w2,
    remove_episodes_based_on_filter credentials false DATE_ADDED None UTC
      (Some ["A Publisher"]) scripted_server
    = (w2, Raise UnboundLocalError)
    ∧ remove_episodes_based_on_filter credentials true DATE_ADDED None UTC
        (Some ["A Publisher"]) scripted_server
      = (w2, Ok tt).
Proof.
  pose (r1 := get_access_token (CLIENT_ID credentials) (CLIENT_SECRET credentials)
                (REFRESH_TOKEN credentials) scripted_server).
  pose (r2 := get_saved_episodes "token" r1.1).
  exists r2.1.
  apply (unbound_episodes_to_remove credentials DATE_ADDED None UTC
           (Some ["A Publisher"]) scripted_server r1.1 r2.1 "token" three_saved);
    [vm_compute; reflexivity | vm_compute; reflexivity | discriminate
    | by left].
Defined.

Lemma elem_of_collected (episodes : list saved_episode) : ∀ (acc : gset string) p,
  p ∈ foldl (λ authors ep, authors ∪ {[ publisher_of ep ]}) acc episodes
  ↔ p ∈ acc ∨ ∃ ep, ep ∈ episodes ∧ publisher_of ep = p.
Proof.
  induction episodes as [|ep eps IH]; intros acc p; simpl.
  - split; [by left|]. intros [?|(ep & Hep & _)]; [done|].
    by apply elem_of_nil in Hep.
  - rewrite IH, elem_of_union, elem_of_singleton. split.
    + intros [[?| ->]|(ep' & Hep' & Hp)]; [by left| |].
      * right. exists ep. split; [by left|done].
      * right. exists ep'. split; [by right|done].
    + intros [?|(ep' & Hep' & Hp)]; [by left; left|].
      apply elem_of_cons in Hep' as [->|Hep'].
      * left. by right.
      * right. by exists ep'.
Qed.

(** C9. [get_unique_authors], a function of the episode list alone,
    returns the publishers of the episodes, each one once, in increasing
    lexicographic order, also when episodes share a publisher. *)
Theorem unique_authors_sorted (episodes : list saved_episode) :
  let authors := get_unique_authors episodes in
  StronglySorted String.le authors
  ∧ NoDup authors
  ∧ StronglySorted (strict String.le) authors
  ∧ ∀ p, p ∈ authors ↔ ∃ ep, ep ∈ episodes ∧ publisher_of ep = p.
Proof.
  intros authors. subst authors. unfold get_unique_authors, sorted.
  set (collected := foldl _ ∅ episodes).
  assert (Hsorted : StronglySorted String.le (merge_sort String.le (elements collected)))
    by apply (StronglySorted_merge_sort _).
  assert (Hnodup : NoDup (merge_sort String.le (elements collected))).
  { rewrite merge_sort_Permutation. apply NoDup_elements. }
  split; [done|]. split; [done|]. split.
  - revert Hsorted Hnodup.
    generalize (merge_sort String.le (elements collected)) as l.
    induction l as [|x l IH]; intros Hs Hn; [constructor|].
    apply StronglySorted_inv in Hs as [Hs Hx].
    apply NoDup_cons in Hn as [Hnx Hn].
    constructor; [by apply IH|].
    apply Forall_forall. intros y Hy. split.
    + by apply (proj1 (Forall_forall _ _) Hx).
    + intros Hyx.
      assert (x = y) as ->; [|done].
      apply (anti_symm String.le); [|done].
      by apply (proj1 (Forall_forall _ _) Hx).
  - intros p. rewrite merge_sort_Permutation, elem_of_elements.
    subst collected. rewrite elem_of_collected. split.
    + by intros [?%not_elem_of_empty|?].
    + by right.
Qed.

Example unique_authors_repeated :
  get_unique_authors
    [mk_saved "" (mk_episode "1" "" "" (mk_show "" "Zeit"));
     mk_saved "" (mk_episode "2" "" "" (mk_show "" "BBC"));
     mk_saved "" (mk_episode "3" "" "" (mk_show "" "Zeit"));
     mk_saved "" (mk_episode "4" "" "" (mk_show "" "NPR"))]
  = ["BBC"; "NPR"; "Zeit"].
Proof. vm_compute. reflexivity. Qed.

(** ** Further properties of the date filter *)

Section Filter_trace.

Variables (date_type : string) (cutoff : aware) (tz : tzinfo)
          (authors : list string).

Let kept (episodes : list saved_episode) : list saved_episode :=
  filter (λ ep, keep date_type cutoff tz authors ep) episodes.

Lemma would_remove_resolved ep d date_label t :
  resolve_date date_type ep = Ok (d, date_label) →
  to_local tz d = Ok t →
  would_remove date_type tz ep
  = Some (Print (WouldRemove (name (the_episode ep))
                   (show_name (of_show (the_episode ep)))
                   (publisher (of_show (the_episode ep))) date_label t)).
Proof. unfold would_remove. by intros -> ->. Qed.

(** The loop over a harmless prefix: the kept episodes of the prefix are
    added to the result and their lines to the trace, and the loop goes on
    with the rest. *)
Lemma filter_loop_app prefix : ∀ rest filtered w,
  Forall (harmless date_type tz authors) prefix →
  filter_loop date_type cutoff tz authors (prefix ++ rest) filtered w
  = filter_loop date_type cutoff tz authors rest (filtered ++ kept prefix)
      (mk_world (pending w)
         (trace w ++ omap (would_remove date_type tz) (kept prefix))).
Proof.
  subst kept.
  induction prefix as [|ep eps IH]; intros rest acc w Hall; cbn [app].
  - rewrite filter_nil. cbn [omap list_omap]. rewrite !app_nil_r. by destruct w.
  - apply Forall_cons in Hall as [Hep Hall]. cbn [filter_loop].
    case_bool_decide as Hnot.
    + rewrite filter_cons_False
        by (rewrite keep_unselected by done; by intros []).
      by apply IH.
    + assert (Hin : publisher_of ep ∈ authors)
        by (destruct (decide (publisher_of ep ∈ authors)); tauto).
      specialize (Hep Hin). unfold converted in Hep.
      destruct (resolve_date date_type ep) as [[d lbl]|e] eqn:Hres; [|done].
      simpl in Hep.
      destruct (to_local tz d) as [t|e] eqn:Hloc; [|done].
      assert (Hconv : converted date_type tz ep = Ok t)
        by (unfold converted; by rewrite Hres).
      pose proof (keep_selected date_type cutoff tz authors ep t Hin Hconv) as Hkeep.
      pose proof (would_remove_resolved ep d lbl t Hres Hloc) as Hline.
      unfold_M. cbn beta iota. rewrite Hloc.
      destruct (aware_lt t cutoff) eqn:Hlt.
      * rewrite filter_cons_True by (rewrite Hkeep; exact I).
        rewrite IH by done. cbn [pending trace omap list_omap].
        rewrite Hline. by rewrite <- !app_assoc.
      * rewrite filter_cons_False by (rewrite Hkeep; by intros []).
        by apply IH.
Qed.

End Filter_trace.

Lemma omap_all_some {A B} (f : A → option B) (l : list A) :
  Forall (λ x, is_Some (f x)) l → Forall2 (λ x y, f x = Some y) l (omap f l).
Proof.
  induction 1 as [|x l [y Hy] _ IH]; cbn [omap list_omap]; [constructor|].
  rewrite Hy. by constructor.
Qed.

Lemma keep_would_remove date_type cutoff tz authors ep :
  keep date_type cutoff tz authors ep → is_Some (would_remove date_type tz ep).
Proof.
  unfold keep, converted, would_remove. intros [_ H]%andb_prop_elim.
  destruct (resolve_date date_type ep) as [[d lbl]|e]; simpl in *; [|done].
  destruct (to_local tz d); [by eexists|done].
Qed.

(** X1. A call that returns a list with some author selected has sent
    nothing to the server and has printed, after what was printed before,
    one line for each episode of the result, in the order of the result,
    and then the number of episodes of the result. *)
Theorem filter_prints_each_kept episodes date_type before_date tz authors w w' res :
  authors ≠ [] →
  remove_episodes_by_date episodes date_type before_date tz (Some authors) w
    = (w', Ok res) →
  pending w' = pending w
  ∧ ∃ lines,
      Forall2 (λ ep line, would_remove date_type tz ep = Some line) res lines
      ∧ trace w' = trace w ++ lines ++ [Print (TotalMatching (length res))].
Proof.
  intros Hne Hrun. pose proof Hrun as Hinv.
  apply remove_episodes_by_date_inv in Hinv
    as (day & cutoff & Hday & Hcut & [[[?|?] _]|(a & [= <-] & _ & Hall & ->)]);
    [done | by simplify_eq | ].
  unfold remove_episodes_by_date in Hrun. unfold_M. rewrite Hday, Hcut in Hrun.
  destruct authors as [|a0 authors0]; [done|].
  rewrite <- (app_nil_r episodes) in Hrun at 1.
  rewrite filter_loop_app in Hrun by done. cbn [filter_loop] in Hrun.
  unfold_M. cbn [pending trace app] in Hrun. injection Hrun as <-.
  split; [done|]. eexists. split; [|by rewrite <- app_assoc].
  apply omap_all_some, Forall_forall.
  intros ep [Hkeep _]%list_elem_of_filter. by eapply keep_would_remove.
Qed.

Lemma filter_prints_each_kept_new_year :
  let run := remove_episodes_by_date [new_year_episode] DATE_ADDED "2023-01-01"
               America_Los_Angeles (Some ["A Publisher"]) offline in
  run.2 = Ok [new_year_episode]
  ∧ pending run.1 = []
  ∧ ∃ lines,
      Forall2 (λ ep line, would_remove DATE_ADDED America_Los_Angeles ep = Some line)
        [new_year_episode] lines
      ∧ trace run.1 = [] ++ lines ++ [Print (TotalMatching 1)].
Proof.
  intros run. split; [vm_compute; reflexivity|].
  apply (filter_prints_each_kept [new_year_episode] DATE_ADDED "2023-01-01"
           America_Los_Angeles ["A Publisher"] offline run.1 [new_year_episode]);
    [discriminate | vm_compute; reflexivity].
Defined.

Lemma filter_keep_unselected date_type cutoff tz authors episodes :
  Forall (λ ep, publisher_of ep ∉ authors) episodes →
  filter (λ ep, keep date_type cutoff tz authors ep) episodes = [].
Proof.
  induction 1 as [|ep eps Hep _ IH]; [done|].
  rewrite filter_cons_False; [done|].
  rewrite keep_unselected by done. by intros [].
Qed.

(** X2. When no episode has a selected publisher the result is empty and
    no date is read: the dates may be unparsable and the selector unknown,
    the call still returns and prints a total of 0. *)
Theorem nothing_selected_reads_no_date episodes date_type before_date tz authors
    cutoff_day cutoff w :
  strptime_date before_date = Ok cutoff_day →
  localize tz cutoff_day = Ok cutoff →
  authors ≠ [] →
  Forall (λ ep, publisher_of ep ∉ authors) episodes →
  remove_episodes_by_date episodes date_type before_date tz (Some authors) w
  = (mk_world (pending w) (trace w ++ [Print (TotalMatching 0)]), Ok []).
Proof.
  intros Hday Hcut Hne Hnone.
  assert (Hall : Forall (harmless date_type tz authors) episodes).
  { eapply Forall_impl; [exact Hnone|]. intros ep Hep Hin. by destruct Hep. }
  pose proof (filter_keep_unselected date_type cutoff tz authors episodes Hnone)
    as Hkept.
  unfold remove_episodes_by_date. unfold_M. rewrite Hday, Hcut.
  destruct authors as [|a0 authors0]; [done|].
  rewrite <- (app_nil_r episodes) at 1.
  rewrite filter_loop_app by done. cbn [filter_loop]. unfold_M.
  rewrite Hkept. cbn [pending trace app omap list_omap length].
  by rewrite app_nil_r.
Qed.

Lemma nothing_selected_reads_no_date_garbled :
  remove_episodes_by_date
    [mk_saved "not a timestamp" (mk_episode "1" "E" "not a date" (mk_show "S" "P"))]
    "Neither selector" "2023-01-01" America_Los_Angeles (Some ["Q"]) offline
  = (mk_world [] [Print (TotalMatching 0)], Ok []).
Proof.
  apply (nothing_selected_reads_no_date _ "Neither selector" "2023-01-01"
           America_Los_Angeles ["Q"] _ _ offline eq_refl eq_refl);
    [discriminate|].
  constructor; [|constructor].
  apply not_elem_of_cons. split; [discriminate | apply not_elem_of_nil].
Defined.

(** The loop stops at the first selected episode whose date cannot be
    computed. *)
Lemma filter_loop_raises date_type cutoff tz authors prefix bad rest filtered w e :
  Forall (harmless date_type tz authors) prefix →
  publisher_of bad ∈ authors →
  converted date_type tz bad = Raise e →
  filter_loop date_type cutoff tz authors (prefix ++ bad :: rest) filtered w
  = (mk_world (pending w)
       (trace w ++ omap (would_remove date_type tz)
                     (filter (λ ep, keep date_type cutoff tz authors ep) prefix)),
     Raise e).
Proof.
  intros Hall Hin Hbad. rewrite filter_loop_app by done. cbn [filter_loop].
  rewrite bool_decide_eq_false_2 by (intros Hnot; by destruct Hnot).
  unfold converted in Hbad. unfold_M.
  destruct (resolve_date date_type bad) as [[d lbl]|e']; simpl in *.
  - by rewrite Hbad.
  - by injection Hbad as ->.
Qed.

(** X3. A selected episode whose date cannot be computed makes the call
    raise that error when the loop reaches it: the episodes kept before it
    have had their lines printed, but no list is returned and no total is
    printed; the episodes after it are not looked at. *)
Theorem bad_date_loses_result prefix bad rest date_type before_date tz authors
    cutoff_day cutoff e w :
  strptime_date before_date = Ok cutoff_day →
  localize tz cutoff_day = Ok cutoff →
  Forall (harmless date_type tz authors) prefix →
  publisher_of bad ∈ authors →
  converted date_type tz bad = Raise e →
  remove_episodes_by_date (prefix ++ bad :: rest) date_type before_date tz
    (Some authors) w
  = (mk_world (pending w)
       (trace w ++ omap (would_remove date_type tz)
                     (filter (λ ep, keep date_type cutoff tz authors ep) prefix)),
     Raise e).
Proof.
  intros Hday Hcut Hall Hin Hbad.
  unfold remove_episodes_by_date. unfold_M. rewrite Hday, Hcut.
  destruct authors as [|a0 authors0]; [by apply elem_of_nil in Hin|].
  by rewrite (filter_loop_raises _ _ _ _ _ _ _ _ _ e).
Qed.

Lemma bad_date_loses_result_month_13 :
  let bad := mk_saved "2022-13-01T00:00:00Z"
               (mk_episode "9" "E" "2022-01-01" (mk_show "S" "A Publisher")) in
  ∃ line,
    remove_episodes_by_date ([saved_in_2022 "1"] ++ bad :: [saved_in_2022 "2"])
      DATE_ADDED "2023-01-01" UTC (Some ["A Publisher"]) offline
    = (mk_world [] [line], Raise ValueError).
Proof.
  intros bad. eexists.
  rewrite (bad_date_loses_result [saved_in_2022 "1"] bad [saved_in_2022 "2"]
             DATE_ADDED "2023-01-01" UTC ["A Publisher"] _ _ ValueError offline
             eq_refl eq_refl);
    [vm_compute; reflexivity | | by left | reflexivity].
  constructor; [|constructor]. intros _. reflexivity.
Defined.

Lemma first_selected (authors : list string) (episodes : list saved_episode) ep :
  ep ∈ episodes → publisher_of ep ∈ authors →
  ∃ prefix first rest,
    episodes = prefix ++ first :: rest
    ∧ Forall (λ ep, publisher_of ep ∉ authors) prefix
    ∧ publisher_of first ∈ authors.
Proof.
  intros Hep Hin. induction episodes as [|x eps IH]; [by apply elem_of_nil in Hep|].
  destruct (decide (publisher_of x ∈ authors)) as [Hx|Hx].
  - by exists [], x, eps.
  - apply elem_of_cons in Hep as [->|Hep]; [done|].
    destruct (IH Hep) as (prefix & first & rest & -> & Hpre & Hfirst).
    exists (x :: prefix), first, rest. split; [done|]. split; [by constructor|done].
Qed.

(** X4. With a selector that is neither 'Date Added to Library' nor
    'Podcast Release Date', a call that reaches an episode with a selected
    publisher raises [UnboundLocalError] there, having printed nothing. *)
Theorem unknown_selector_raises episodes date_type before_date tz authors
    cutoff_day cutoff ep w :
  date_type ≠ DATE_ADDED → date_type ≠ RELEASE_DATE →
  strptime_date before_date = Ok cutoff_day →
  localize tz cutoff_day = Ok cutoff →
  ep ∈ episodes → publisher_of ep ∈ authors →
  remove_episodes_by_date episodes date_type before_date tz (Some authors) w
  = (w, Raise UnboundLocalError).
Proof.
  intros Hadd Hrel Hday Hcut Hep Hin.
  destruct (first_selected authors episodes ep Hep Hin)
    as (prefix & first & rest & -> & Hpre & Hfirst).
  assert (Hall : Forall (harmless date_type tz authors) prefix).
  { eapply Forall_impl; [exact Hpre|]. intros x Hx Hx'. by destruct Hx. }
  assert (Hbad : converted date_type tz first = Raise UnboundLocalError).
  { unfold converted, resolve_date. by rewrite !decide_False by done. }
  pose proof (filter_keep_unselected date_type cutoff tz authors prefix Hpre)
    as Hkept.
  unfold remove_episodes_by_date. unfold_M. rewrite Hday, Hcut.
  destruct authors as [|a0 authors0]; [by apply elem_of_nil in Hin|].
  rewrite (filter_loop_raises _ _ _ _ _ _ _ _ _ UnboundLocalError) by done.
  rewrite Hkept. cbn [omap list_omap]. rewrite app_nil_r. by destruct w.
Qed.

Lemma unknown_selector_raises_added :
  remove_episodes_by_date [new_year_episode] "Date Added" "2023-01-01" UTC
    (Some ["A Publisher"]) offline
  = (offline, Raise UnboundLocalError).
Proof.
  eapply (unknown_selector_raises [new_year_episode] "Date Added" "2023-01-01"
            UTC ["A Publisher"]);
    [discriminate | discriminate | reflexivity | reflexivity
    | by left | by left].
Defined.

Lemma converted_instant date_type tz ep t :
  converted date_type tz ep = Ok t →
  ∃ d date_label,
    resolve_date date_type ep = Ok (d, date_label) ∧ instant t = seconds_of d.
Proof.
  unfold converted.
  destruct (resolve_date date_type ep) as [[d lbl]|e]; simpl; [|done].
  unfold to_local, localize. simpl. intros Ht%astimezone_instant.
  exists d, lbl. split; [done|]. rewrite Ht. unfold instant. simpl. lia.
Qed.

(** In a list the call returns, a selected episode of the input is present
    exactly when its converted date is before the cutoff. *)
Lemma kept_iff episodes date_type before_date tz authors cutoff_day cutoff w w'
    res ep :
  strptime_date before_date = Ok cutoff_day →
  localize tz cutoff_day = Ok cutoff →
  remove_episodes_by_date episodes date_type before_date tz (Some authors) w
    = (w', Ok res) →
  ep ∈ episodes → publisher_of ep ∈ authors →
  ∃ t, converted date_type tz ep = Ok t
       ∧ (ep ∈ res ↔ instant t < instant cutoff).
Proof.
  intros Hday Hcut Hrun Hep Hin.
  apply remove_episodes_by_date_inv in Hrun
    as (day' & cutoff' & Hday' & Hcut' & [[[?|?] ->]|(a & [= <-] & _ & Hall & ->)]);
    [done | simplify_eq; by apply elem_of_nil in Hin | ].
  rewrite Hday in Hday'. injection Hday' as <-.
  rewrite Hcut in Hcut'. injection Hcut' as <-.
  pose proof (proj1 (Forall_forall _ _) Hall ep Hep Hin) as Hok.
  destruct (converted date_type tz ep) as [t|e] eqn:Hconv; [|done].
  exists t. split; [done|].
  rewrite list_elem_of_filter,
    (keep_selected date_type cutoff tz authors ep t Hin Hconv).
  unfold aware_lt. rewrite Is_true_true, Z.ltb_lt. tauto.
Qed.

(** X5. Converting the date of an episode to the target timezone does not
    move it in time: in a returned list a selected episode is present
    exactly when its parsed date, read as UTC, is before the instant of
    the cutoff, that is the cutoff day at midnight less the UTC offset the
    timezone has there.  The timezone acts on the cutoff only. *)
Theorem timezone_shifts_cutoff_only episodes date_type before_date tz authors
    cutoff_day cutoff w w' res ep :
  strptime_date before_date = Ok cutoff_day →
  localize tz cutoff_day = Ok cutoff →
  remove_episodes_by_date episodes date_type before_date tz (Some authors) w
    = (w', Ok res) →
  ep ∈ episodes → publisher_of ep ∈ authors →
  ∃ d date_label,
    resolve_date date_type ep = Ok (d, date_label)
    ∧ (ep ∈ res ↔ seconds_of d < seconds_of cutoff_day - utcoffset cutoff).
Proof.
  intros Hday Hcut Hrun Hep Hin.
  destruct (kept_iff _ _ _ _ _ _ _ _ _ _ _ Hday Hcut Hrun Hep Hin)
    as (t & Hconv & Hiff).
  destruct (converted_instant _ _ _ _ Hconv) as (d & lbl & Hres & Hinst).
  exists d, lbl. split; [done|].
  rewrite Hiff, Hinst. unfold instant at 1.
  by rewrite (localize_wall _ _ _ Hcut).
Qed.

Lemma timezone_shifts_cutoff_only_new_year :
  let run := remove_episodes_by_date [new_year_episode] DATE_ADDED "2023-01-01"
               America_Los_Angeles (Some ["A Publisher"]) offline in
  run.2 = Ok [new_year_episode]
  ∧ ∃ d date_label,
      resolve_date DATE_ADDED new_year_episode = Ok (d, date_label)
      ∧ (new_year_episode ∈ [new_year_episode]
         ↔ seconds_of d < seconds_of (mk_datetime 2023 1 1 0 0 0) - PST).
Proof.
  intros run. split; [vm_compute; reflexivity|].
  apply (timezone_shifts_cutoff_only [new_year_episode] DATE_ADDED "2023-01-01"
           America_Los_Angeles ["A Publisher"] _ (mk_aware _ PST) offline run.1
           [new_year_episode] new_year_episode eq_refl eq_refl);
    [vm_compute; reflexivity | by left | by left].
Defined.

(** X6. With the selector 'Podcast Release Date', an episode released on
    the cutoff day is in the returned list exactly when the timezone is
    behind UTC at the cutoff midnight: it is removed west of Greenwich and
    kept in UTC and east of it. *)
Theorem release_on_cutoff_day_iff_behind_utc episodes before_date tz authors
    cutoff_day cutoff w w' res ep :
  strptime_date before_date = Ok cutoff_day →
  localize tz cutoff_day = Ok cutoff →
  remove_episodes_by_date episodes RELEASE_DATE before_date tz (Some authors) w
    = (w', Ok res) →
  ep ∈ episodes → publisher_of ep ∈ authors →
  strptime_date (release_date (the_episode ep)) = Ok cutoff_day →
  ep ∈ res ↔ utcoffset cutoff < 0.
Proof.
  intros Hday Hcut Hrun Hep Hin Hrel.
  destruct (kept_iff _ _ _ _ _ _ _ _ _ _ _ Hday Hcut Hrun Hep Hin)
    as (t & Hconv & Hiff).
  destruct (converted_instant _ _ _ _ Hconv) as (d & lbl & Hres & Hinst).
  unfold resolve_date in Hres. rewrite decide_False, decide_True in Hres by done.
  rewrite Hrel in Hres. simpl in Hres. injection Hres as <- _.
  rewrite Hiff, Hinst. unfold instant.
  rewrite (localize_wall _ _ _ Hcut). lia.
Qed.

Lemma release_on_cutoff_day_iff_behind_utc_kept_in_utc :
  let run := remove_episodes_by_date [new_year_episode] RELEASE_DATE "2023-01-01"
               UTC (Some ["A Publisher"]) offline in
  run.2 = Ok [] ∧ (new_year_episode ∈ [] ↔ 0 < 0).
Proof.
  intros run. split; [vm_compute; reflexivity|].
  apply (release_on_cutoff_day_iff_behind_utc [new_year_episode] "2023-01-01"
           UTC ["A Publisher"] _ (mk_aware _ 0) offline run.1 []
           new_year_episode eq_refl eq_refl);
    [vm_compute; reflexivity | by left | by left | reflexivity].
Defined.

Lemma harmless_of_run episodes date_type before_date tz authors w w' res :
  authors ≠ [] →
  remove_episodes_by_date episodes date_type before_date tz (Some authors) w
    = (w', Ok res) →
  ∃ cutoff_day cutoff,
    strptime_date before_date = Ok cutoff_day
    ∧ localize tz cutoff_day = Ok cutoff
    ∧ Forall (harmless date_type tz authors) episodes
    ∧ res = filter (λ ep, keep date_type cutoff tz authors ep) episodes.
Proof.
  intros Hne Hrun.
  apply remove_episodes_by_date_inv in Hrun
    as (day & cutoff & Hday & Hcut & [[[?|?] _]|(a & [= <-] & _ & Hall & ->)]);
    [done | by simplify_eq | ].
  by exists day, cutoff.
Qed.

(** X7. Moving the cutoff later never drops an episode.  If the call
    returns for a cutoff, it returns for every cutoff that parses and is
    localized to an earlier or equal instant, and the list for the earlier
    cutoff is the list for the later one with some episodes left out. *)
Theorem later_cutoff_keeps_more episodes date_type earlier later tz authors
    day1 cutoff1 day2 cutoff2 w w2 res2 :
  authors ≠ [] →
  strptime_date earlier = Ok day1 → localize tz day1 = Ok cutoff1 →
  strptime_date later = Ok day2 → localize tz day2 = Ok cutoff2 →
  instant cutoff1 ≤ instant cutoff2 →
  remove_episodes_by_date episodes date_type later tz (Some authors) w
    = (w2, Ok res2) →
  ∃ w1 res1,
    remove_episodes_by_date episodes date_type earlier tz (Some authors) w
      = (w1, Ok res1)
    ∧ res1 `sublist_of` res2
    ∧ ∀ ep, ep ∈ res1 → ep ∈ res2.
Proof.
  intros Hne Hd1 Hc1 Hd2 Hc2 Hle Hrun.
  destruct (harmless_of_run _ _ _ _ _ _ _ _ Hne Hrun)
    as (d & c & Hd & Hc & Hall & ->).
  rewrite Hd2 in Hd. injection Hd as <-. rewrite Hc2 in Hc. injection Hc as <-.
  destruct (remove_episodes_by_date_returns episodes date_type earlier tz authors
              day1 cutoff1 w Hd1 Hc1 Hne Hall) as (w1 & Hrun1 & _).
  eexists w1, _. split; [exact Hrun1|].
  assert (Himp : ∀ ep, keep date_type cutoff1 tz authors ep
                       → keep date_type cutoff2 tz authors ep).
  { intros ep. unfold keep. intros [Hp Hlt]%andb_prop_elim.
    apply andb_prop_intro. split; [done|].
    destruct (converted date_type tz ep) as [t|]; [|done].
    unfold aware_lt in *. apply Is_true_true, Z.ltb_lt in Hlt.
    apply Is_true_true, Z.ltb_lt. lia. }
  assert (Heq : filter (λ ep, keep date_type cutoff1 tz authors ep) episodes
                = filter (λ ep, keep date_type cutoff1 tz authors ep)
                    (filter (λ ep, keep date_type cutoff2 tz authors ep) episodes)).
  { rewrite list_filter_filter. apply list_filter_iff. intros ep.
    split; [|tauto]. intros H. split; [done|by apply Himp]. }
  split.
  - rewrite Heq. apply sublist_filter.
  - intros ep [Hk Hep]%list_elem_of_filter. apply list_elem_of_filter.
    split; [by apply Himp|done].
Qed.

Lemma later_cutoff_keeps_more_2022_2023 :
  ∃ w1 res1,
    remove_episodes_by_date (new_year_episode :: three_saved) DATE_ADDED
      "2022-12-31" UTC (Some ["A Publisher"]) offline = (w1, Ok res1)
    ∧ res1 `sublist_of` new_year_episode :: three_saved
    ∧ ∀ ep, ep ∈ res1 → ep ∈ new_year_episode :: three_saved.
Proof.
  eapply (later_cutoff_keeps_more (new_year_episode :: three_saved) DATE_ADDED
            "2022-12-31" "2023-01-02" UTC ["A Publisher"] _ _ _ _ offline
            (remove_episodes_by_date (new_year_episode :: three_saved) DATE_ADDED
               "2023-01-02" UTC (Some ["A Publisher"]) offline).1);
    [discriminate | reflexivity | reflexivity | reflexivity | reflexivity
    | vm_compute; discriminate | vm_compute; reflexivity].
Defined.

(** X8. Selecting fewer authors never adds an episode.  If the call returns
    for a selection, it returns for every non-empty selection included in
    it, with the episodes of the larger result whose publisher is in the
    smaller selection. *)
Theorem fewer_authors_keep_fewer episodes date_type before_date tz fewer more
    w w2 res2 :
  fewer ≠ [] → fewer ⊆ more →
  remove_episodes_by_date episodes date_type before_date tz (Some more) w
    = (w2, Ok res2) →
  ∃ w1,
    remove_episodes_by_date episodes date_type before_date tz (Some fewer) w
    = (w1, Ok (filter (λ ep, publisher_of ep ∈ fewer) res2)).
Proof.
  intros Hne Hsub Hrun.
  assert (Hne2 : more ≠ []).
  { destruct fewer as [|a l]; [done|]. intros ->.
    by apply (elem_of_nil a), Hsub; left. }
  destruct (harmless_of_run _ _ _ _ _ _ _ _ Hne2 Hrun)
    as (d & c & Hd & Hc & Hall & ->).
  assert (Hall1 : Forall (harmless date_type tz fewer) episodes).
  { eapply Forall_impl; [exact Hall|]. intros ep H Hin. apply H. by apply Hsub. }
  destruct (remove_episodes_by_date_returns episodes date_type before_date tz fewer
              d c w Hd Hc Hne Hall1) as (w1 & Hrun1 & _).
  exists w1. rewrite Hrun1. do 2 f_equal.
  rewrite list_filter_filter. apply list_filter_iff. intros ep. unfold keep.
  rewrite !andb_True, !bool_decide_spec. split.
  - intros [Hin Hlt]. split; [done|]. split; [by apply Hsub|done].
  - tauto.
Qed.

Lemma fewer_authors_keep_fewer_one_of_two :
  ∃ w1,
    remove_episodes_by_date three_saved DATE_ADDED "2023-01-01" UTC
      (Some ["A Publisher"]) offline
    = (w1, Ok (filter (λ ep, publisher_of ep ∈ ["A Publisher"]) three_saved)).
Proof.
  eapply (fewer_authors_keep_fewer three_saved DATE_ADDED "2023-01-01" UTC
            ["A Publisher"] ["Another"; "A Publisher"] offline
            (remove_episodes_by_date three_saved DATE_ADDED "2023-01-01" UTC
               (Some ["Another"; "A Publisher"]) offline).1 three_saved);
    [discriminate | | vm_compute; reflexivity].
  intros a Ha. by right.
Defined.

(** X9. Filtering is idempotent: the list the call returns, given back to
    it with the same selector, cutoff, timezone and selection, is returned
    unchanged, from any world. *)
Theorem filter_again_same episodes date_type before_date tz sel w w' res :
  remove_episodes_by_date episodes date_type before_date tz sel w = (w', Ok res) →
  ∀ w0, ∃ w0',
    remove_episodes_by_date res date_type before_date tz sel w0 = (w0', Ok res).
Proof.
  intros Hrun w0.
  apply remove_episodes_by_date_inv in Hrun
    as (d & c & Hd & Hc & [[Hsel ->]|(a & -> & Hne & Hall & ->)]).
  - eexists. unfold remove_episodes_by_date. unfold_M. rewrite Hd, Hc.
    by destruct Hsel as [-> | ->].
  - assert (Hall' : Forall (harmless date_type tz a)
                      (filter (λ ep, keep date_type c tz a ep) episodes)).
    { apply Forall_forall. intros ep [_ Hep]%list_elem_of_filter.
      by apply (proj1 (Forall_forall _ _) Hall). }
    destruct (remove_episodes_by_date_returns _ date_type before_date tz a d c w0
                Hd Hc Hne Hall') as (w0' & Hrun' & _).
    exists w0'. rewrite Hrun'. do 2 f_equal.
    rewrite list_filter_filter. apply list_filter_iff. tauto.
Qed.

Lemma filter_again_same_new_year :
  ∃ w0',
    remove_episodes_by_date [new_year_episode] DATE_ADDED "2023-01-01"
      America_Los_Angeles (Some ["A Publisher"; "B"]) scripted_server
    = (w0', Ok [new_year_episode]).
Proof.
  pose (later := mk_saved "2023-06-01T00:00:00Z"
                   (mk_episode "7" "E" "2023-05-30" (mk_show "S" "B"))).
  apply (filter_again_same [later; new_year_episode; later] DATE_ADDED
           "2023-01-01" America_Los_Angeles (Some ["A Publisher"; "B"]) offline
           (remove_episodes_by_date [later; new_year_episode; later] DATE_ADDED
              "2023-01-01" America_Los_Angeles (Some ["A Publisher"; "B"])
              offline).1 [new_year_episode]).
  vm_compute; reflexivity.
Defined.

(** ** Further properties of the author list *)

Lemma elem_of_unique_authors episodes p :
  p ∈ get_unique_authors episodes ↔ ∃ ep, ep ∈ episodes ∧ publisher_of ep = p.
Proof.
  unfold get_unique_authors, sorted.
  rewrite merge_sort_Permutation, elem_of_elements, elem_of_collected.
  split; [|by right]. by intros [?%not_elem_of_empty|?].
Qed.

Lemma collected_eq (episodes1 episodes2 : list saved_episode) :
  (∀ p, (∃ ep, ep ∈ episodes1 ∧ publisher_of ep = p)
        ↔ (∃ ep, ep ∈ episodes2 ∧ publisher_of ep = p)) →
  foldl (λ authors ep, authors ∪ {[ publisher_of ep ]}) (∅ : gset string) episodes1
  = foldl (λ authors ep, authors ∪ {[ publisher_of ep ]}) ∅ episodes2.
Proof.
  intros Hsame. apply set_eq. intros p. rewrite !elem_of_collected.
  split; (intros [?%not_elem_of_empty|H]; [done|]); right; by apply Hsame.
Qed.

(** X10. The author list depends only on which publishers occur: two
    episode lists with the same publishers, in any order and with any
    repetition, give the same list of authors. *)
Theorem unique_authors_same_publishers episodes1 episodes2 :
  (∀ p, (∃ ep, ep ∈ episodes1 ∧ publisher_of ep = p)
        ↔ (∃ ep, ep ∈ episodes2 ∧ publisher_of ep = p)) →
  get_unique_authors episodes1 = get_unique_authors episodes2.
Proof.
  intros Hsame. unfold get_unique_authors. by rewrite (collected_eq _ _ Hsame).
Qed.

Lemma unique_authors_same_publishers_reordered :
  get_unique_authors (new_year_episode :: three_saved)
  = get_unique_authors (three_saved ++ [new_year_episode; new_year_episode]).
Proof.
  apply unique_authors_same_publishers. intros p. split.
  - intros (ep & Hep & <-). exists new_year_episode.
    split; [apply elem_of_app; right; by left|].
    repeat (apply elem_of_cons in Hep as [->|Hep]; [reflexivity|]).
    by apply elem_of_nil in Hep.
  - intros (ep & Hep & <-). exists new_year_episode. split; [by left|].
    apply elem_of_app in Hep as [Hep|Hep];
      repeat (apply elem_of_cons in Hep as [->|Hep]; [reflexivity|]);
      by apply elem_of_nil in Hep.
Defined.

Lemma size_collected (episodes : list saved_episode) : ∀ acc : gset string,
  (size (foldl (λ authors ep, authors ∪ {[ publisher_of ep ]}) acc episodes)
   ≤ size acc + length episodes)%nat.
Proof.
  induction episodes as [|ep eps IH]; intros acc; simpl; [lia|].
  etrans; [apply IH|].
  pose proof (size_union_alt acc {[publisher_of ep]}) as Hsz.
  assert (size ({[publisher_of ep]} ∖ acc : gset string) ≤ 1)%nat.
  { etrans; [apply subseteq_size, (subseteq_difference_l _ _ _ (reflexivity _))|].
    by rewrite size_singleton. }
  lia.
Qed.

(** X11. There are at most as many authors as episodes, and the author
    list is empty exactly when the episode list is. *)
Theorem unique_authors_size episodes :
  (length (get_unique_authors episodes) ≤ length episodes)%nat
  ∧ (get_unique_authors episodes = [] ↔ episodes = []).
Proof.
  split.
  - unfold get_unique_authors, sorted. rewrite merge_sort_Permutation.
    fold (size (foldl (λ authors ep, authors ∪ {[ publisher_of ep ]})
                  (∅ : gset string) episodes)).
    etrans; [apply size_collected|]. by rewrite size_empty.
  - split.
    + intros Hnil. destruct episodes as [|ep eps]; [done|].
      assert (publisher_of ep ∈ get_unique_authors (ep :: eps)) as Hin
        by (apply elem_of_unique_authors; exists ep; split; [by left|done]).
      rewrite Hnil in Hin. by apply elem_of_nil in Hin.
    + by intros ->.
Qed.

(** X12. Selecting every author of the list filters by date alone: with
    the selection [get_unique_authors episodes], every episode of the list
    is in the returned list exactly when its converted date is before the
    cutoff. *)
Theorem all_authors_filter_by_date episodes date_type before_date tz cutoff_day
    cutoff w w' res :
  strptime_date before_date = Ok cutoff_day →
  localize tz cutoff_day = Ok cutoff →
  remove_episodes_by_date episodes date_type before_date tz
    (Some (get_unique_authors episodes)) w = (w', Ok res) →
  ∀ ep, ep ∈ episodes →
    ∃ t, converted date_type tz ep = Ok t
         ∧ (ep ∈ res ↔ instant t < instant cutoff).
Proof.
  intros Hday Hcut Hrun ep Hep.
  apply (kept_iff _ _ _ _ _ _ _ _ _ _ _ Hday Hcut Hrun Hep).
  apply elem_of_unique_authors. by exists ep.
Qed.

Lemma all_authors_filter_by_date_new_year :
  ∃ t, converted DATE_ADDED America_Los_Angeles new_year_episode = Ok t
       ∧ (new_year_episode ∈ new_year_episode :: three_saved
          ↔ instant t < instant (mk_aware (seconds_of (mk_datetime 2023 1 1 0 0 0)) PST)).
Proof.
  apply (all_authors_filter_by_date (new_year_episode :: three_saved) DATE_ADDED
           "2023-01-01" America_Los_Angeles _ _ offline
           (remove_episodes_by_date (new_year_episode :: three_saved) DATE_ADDED
              "2023-01-01" America_Los_Angeles
              (Some (get_unique_authors (new_year_episode :: three_saved)))
              offline).1 (new_year_episode :: three_saved) eq_refl eq_refl);
    [vm_compute; reflexivity | by left].
Defined.

(** ** Further properties of the fetch *)

Section Fetch.

Variable access_token : string.

Lemma fetch_pages_all last rest pages :
  is_last last →
  Forall has_next pages →
  ∀ c url episodes tr,
    fetch_pages access_token (pages ++ last :: rest) (Some (String c url))
      episodes tr
    = (mk_world rest
         (tr ++ ((λ u, Get u access_token)
                   <$> String c url :: omap next_of pages)),
       Ok (episodes ++ concat (items_of <$> pages) ++ items_of last)).
Proof.
  intros (H200 & items & Hjson). induction 1 as [|p pages Hp _ IH];
    intros c url episodes tr.
  - cbn [app fetch_pages]. rewrite H200. cbn [Z.eqb Pos.eqb].
    unfold items_of. cbn [fmap list_fmap omap list_omap concat app].
    destruct Hjson as [-> | ->]; by destruct rest.
  - destruct Hp as (Hp200 & pitems & c' & url' & Hpjson).
    cbn [app fetch_pages]. rewrite Hp200, Hpjson. cbn [Z.eqb Pos.eqb].
    rewrite IH.
    assert (Hnext : omap next_of (p :: pages) = String c' url' :: omap next_of pages)
      by (cbn [omap list_omap]; unfold next_of at 1; by rewrite Hpjson).
    assert (Hitems : items_of p = pitems)
      by (unfold items_of; by rewrite Hpjson).
    rewrite Hnext, (fmap_cons items_of), concat_cons, Hitems.
    rewrite (fmap_cons _ (String c url)), <- !app_assoc. done.
Qed.



(** Whatever the server answers, the loop consumes a prefix of the pending
    responses, adds to the trace only GETs with the bearer token and
    printed lines, and what it returns is made of the items of the
    consumed responses with status 200, in order. *)
Lemma fetch_pages_shape responses : ∀ url episodes tr w' r,
  fetch_pages access_token responses url episodes tr = (w', r) →
  ∃ consumed tr',
    responses = consumed ++ pending w'
    ∧ trace w' = tr ++ tr'
    ∧ Forall (print_or_get access_token) tr'
    ∧ ∀ res, r = Ok res →
        res = episodes
              ++ concat (items_of <$> filter (λ r, status_code r = 200) consumed).
Proof.
  induction responses as [|p responses IH]; intros url episodes tr w' r Hrun.
  - destruct url as [[|c u]|]; simplify_eq/=.
    + exists [], []. rewrite !app_nil_r. repeat split; [constructor|].
      by intros res [= <-].
    + exists [], [Get (String c u) access_token]. repeat split.
      * by repeat constructor.
      * done.
    + exists [], []. rewrite !app_nil_r. repeat split; [constructor|].
      by intros res [= <-].
  - destruct url as [[|c u]|]; cbn [fetch_pages] in Hrun.
    + simplify_eq. exists [], []. rewrite !app_nil_r.
      repeat split; [constructor|]. by intros res [= <-].
    + destruct (Z.eqb_spec (status_code p) 200) as [H200|Hne].
      * destruct (json p) as [t|items next|] eqn:Hjson.
        -- simplify_eq. exists [p], [Get (String c u) access_token].
           repeat split; [by repeat constructor|done].
        -- apply IH in Hrun as (consumed & tr' & -> & Htr & Hall & Hres).
           exists (p :: consumed), (Get (String c u) access_token :: tr').
           split; [done|]. split; [by rewrite Htr, <- app_assoc|].
           split; [by constructor|].
           intros res Hr. rewrite (Hres res Hr).
           rewrite filter_cons_True by done. rewrite fmap_cons, concat_cons.
           replace (items_of p) with items by (unfold items_of; by rewrite Hjson).
           by rewrite app_assoc.
        -- simplify_eq. exists [p], [Get (String c u) access_token].
           repeat split; [by repeat constructor|done].
      * simplify_eq.
        exists [p], [Get (String c u) access_token;
                     Print (FetchFailed (status_code p));
                     Print (ResponseText (text p))].
        split; [done|]. split; [by rewrite <- app_assoc|].
        split; [by repeat constructor|].
        intros res [= <-]. rewrite filter_cons_False by done.
        by rewrite filter_nil, app_nil_r.
    + simplify_eq. exists [], []. rewrite !app_nil_r.
      repeat split; [constructor|]. by intros res [= <-].
Qed.

End Fetch.

Lemma EPISODES_URL_cons :
  Some EPISODES_URL = Some (String "h" "ttps://api.spotify.com/v1/me/episodes").
Proof. reflexivity. Qed.

(** X13. When every page is answered with 200, [get_saved_episodes]
    returns the items of all the pages, in the order of the pages.  It
    requests the listing URL first and then the next link of each page,
    stops at the first page whose next link is null or the empty string,
    leaves the later responses unrequested and prints the number of items
    returned. *)
Theorem full_pagination access_token pages last rest tr :
  Forall has_next pages →
  is_last last →
  let episodes := concat (items_of <$> pages) ++ items_of last in
  get_saved_episodes access_token (mk_world (pages ++ last :: rest) tr)
  = (mk_world rest
       (tr ++ ((λ u, Get u access_token) <$> EPISODES_URL :: omap next_of pages)
           ++ [Print (TotalFetched (length episodes))]),
     Ok episodes).
Proof.
  intros Hpages Hlast episodes.
  unfold get_saved_episodes. unfold_M. cbn [pending trace].
  rewrite EPISODES_URL_cons, (fetch_pages_all access_token last rest pages Hlast Hpages).
  cbn [pending trace app]. by rewrite <- app_assoc.
Qed.

(** Three pages of 2, 2 and 1 items give the 5 items in page order. *)
Lemma full_pagination_2_2_1 :
  let e := saved_in_2022 in
  let page1 := mk_response 200 "" (PageJson [e "1"; e "2"] (Some "page2")) in
  let page2 := mk_response 200 "" (PageJson [e "3"; e "4"] (Some "page3")) in
  let page3 := mk_response 200 "" (PageJson [e "5"] None) in
  get_saved_episodes "token" (mk_world [page1; page2; page3] [])
  = (mk_world []
       [Get EPISODES_URL "token"; Get "page2" "token"; Get "page3" "token";
        Print (TotalFetched 5)],
     Ok [e "1"; e "2"; e "3"; e "4"; e "5"]).
Proof.
  intros e page1 page2 page3.
  apply (full_pagination "token" [page1; page2] page3 [] []).
  - repeat constructor; by eexists _, _, _.
  - split; [reflexivity|]. eexists. by left.
Defined.

(** X14. However the server answers and however the call ends,
    [get_saved_episodes] takes the pending responses from the front, and
    adds to the trace only printed lines and GETs carrying the bearer
    token.  When it returns, the result is made of the items of the
    responses it took that had status 200, in order, with nothing added,
    dropped or deduplicated, and the last line printed is their number. *)
Theorem fetch_takes_200_pages access_token w w' r :
  get_saved_episodes access_token w = (w', r) →
  ∃ consumed tr,
    pending w = consumed ++ pending w'
    ∧ trace w' = trace w ++ tr
    ∧ Forall (print_or_get access_token) tr
    ∧ ∀ episodes, r = Ok episodes →
        episodes
        = concat (items_of <$> filter (λ r, status_code r = 200) consumed)
        ∧ last tr = Some (Print (TotalFetched (length episodes))).
Proof.
  unfold get_saved_episodes. unfold_M. intros Hrun.
  destruct (fetch_pages access_token (pending w) (Some EPISODES_URL) [] (trace w))
    as [w1 [eps|e]] eqn:Hfetch;
    apply fetch_pages_shape in Hfetch as (consumed & tr & Hp & Htr & Hall & Hres);
    simplify_eq/=.
  - exists consumed, (tr ++ [Print (TotalFetched (length eps))]).
    split; [done|]. split; [by rewrite Htr, <- app_assoc|].
    split; [apply Forall_app; split; [done|by repeat constructor]|].
    intros ? [= <-]. split; [by apply Hres|]. by rewrite last_snoc.
  - exists consumed, tr. by repeat split.
Qed.

Lemma fetch_takes_200_pages_partial :
  let page1 := mk_response 200 "" (PageJson three_saved (Some "page2")) in
  let page2 := mk_response 429 "Too many requests" (PageJson [new_year_episode] None) in
  ∃ consumed tr,
    [page1; page2; page1] = consumed ++ [page1]
    ∧ trace (get_saved_episodes "token" (mk_world [page1; page2; page1] [])).1
      = [] ++ tr
    ∧ Forall (print_or_get "token") tr
    ∧ ∀ episodes, Ok three_saved = Ok episodes →
        episodes
        = concat (items_of <$> filter (λ r, status_code r = 200) consumed)
        ∧ last tr = Some (Print (TotalFetched (length episodes))).
Proof.
  intros page1 page2.
  apply (fetch_takes_200_pages "token" (mk_world [page1; page2; page1] [])
           (get_saved_episodes "token" (mk_world [page1; page2; page1] [])).1
           (Ok three_saved)).
  vm_compute; reflexivity.
Defined.



(** ** Further properties of the orchestrator *)

Lemma deletions_app tr1 tr2 : deletions (tr1 ++ tr2) = deletions tr1 ++ deletions tr2.
Proof. apply omap_app. Qed.

Section Deletes_nothing.

Context {A B : Type}.

Lemma deletes_nothing_ret (a : A) : deletes_nothing (mret a : M A).
Proof. intros w w' r. unfold_M. by intros [= <- _]. Qed.

Lemma deletes_nothing_raise e : deletes_nothing (raise e : M A).
Proof. intros w w' r. unfold_M. by intros [= <- _]. Qed.

Lemma deletes_nothing_lift (x : result A) : deletes_nothing (lift x).
Proof. intros w w' r. unfold_M. by intros [= <- _]. Qed.

Lemma deletes_nothing_bind (m : M A) (k : A → M B) :
  deletes_nothing m → (∀ a, deletes_nothing (k a)) → deletes_nothing (m ≫= k).
Proof.
  intros Hm Hk w w' r. unfold_M. destruct (m w) as [w1 [a|e]] eqn:Hrun.
  - intros Hk'. rewrite <- (Hm _ _ _ Hrun). by eapply Hk.
  - intros [= <- _]. by eapply Hm.
Qed.

End Deletes_nothing.

Lemma deletes_nothing_print m : deletes_nothing (print m).
Proof.
  intros w w' r. unfold_M. intros [= <- _]. cbn [trace].
  by rewrite deletions_app, app_nil_r.
Qed.

Lemma deletes_nothing_get_access_token client_id client_secret refresh_token :
  deletes_nothing (get_access_token client_id client_secret refresh_token).
Proof.
  unfold get_access_token. apply deletes_nothing_bind.
  - intros w w' r. unfold request.
    destruct (pending w); intros [= <- _]; cbn [trace];
      by rewrite deletions_app, app_nil_r.
  - intros response. case_match.
    + apply deletes_nothing_bind; [apply deletes_nothing_print|]. intros _.
      case_match; first [apply deletes_nothing_ret | apply deletes_nothing_raise].
    + repeat (apply deletes_nothing_bind; [apply deletes_nothing_print|]; intros _).
      apply deletes_nothing_ret.
Qed.

Lemma deletions_print_or_get access_token tr :
  Forall (print_or_get access_token) tr → deletions tr = [].
Proof.
  induction 1 as [|e tr He _ IH]; [done|].
  unfold deletions in *. cbn [omap list_omap]. by destruct e.
Qed.

Lemma deletes_nothing_get_saved_episodes access_token :
  deletes_nothing (get_saved_episodes access_token).
Proof.
  unfold get_saved_episodes. apply deletes_nothing_bind.
  - intros w w' r Hrun.
    apply fetch_pages_shape in Hrun as (consumed & tr & _ & -> & Hall & _).
    by rewrite deletions_app, (deletions_print_or_get _ _ Hall), app_nil_r.
  - intros episodes. apply deletes_nothing_bind; [apply deletes_nothing_print|].
    intros _. apply deletes_nothing_ret.
Qed.

Lemma deletes_nothing_filter_loop date_type cutoff tz authors episodes :
  ∀ filtered,
    deletes_nothing (filter_loop date_type cutoff tz authors episodes filtered).
Proof.
  induction episodes as [|ep eps IH]; intros acc; cbn [filter_loop].
  - apply deletes_nothing_ret.
  - case_match; [apply IH|].
    apply deletes_nothing_bind; [apply deletes_nothing_lift|]. intros [d lbl].
    apply deletes_nothing_bind; [apply deletes_nothing_lift|]. intros t.
    case_match; [|apply IH].
    apply deletes_nothing_bind; [apply deletes_nothing_print|]. intros _. apply IH.
Qed.

Lemma deletes_nothing_remove_episodes_by_date episodes date_type before_date tz sel :
  deletes_nothing (remove_episodes_by_date episodes date_type before_date tz sel).
Proof.
  unfold remove_episodes_by_date.
  apply deletes_nothing_bind; [apply deletes_nothing_lift|]. intros d.
  apply deletes_nothing_bind; [apply deletes_nothing_lift|]. intros c.
  destruct sel as [[|a l]|].
  - apply deletes_nothing_bind; [apply deletes_nothing_print|]. intros _.
    apply deletes_nothing_ret.
  - apply deletes_nothing_bind; [apply deletes_nothing_filter_loop|]. intros res.
    apply deletes_nothing_bind; [apply deletes_nothing_print|]. intros _.
    apply deletes_nothing_ret.
  - apply deletes_nothing_bind; [apply deletes_nothing_print|]. intros _.
    apply deletes_nothing_ret.
Qed.

(** X16. A dry run deletes nothing.  With [test_mode] true,
    [remove_episodes_based_on_filter] sends no deletion request, whatever
    its other arguments, whatever the server answers and however the run
    ends. *)
Theorem dry_run_deletes_nothing cfg date_type before_date tz sel w :
  deletions
    (trace (remove_episodes_based_on_filter cfg true date_type before_date tz
              sel w).1)
  = deletions (trace w).
Proof.
  destruct (remove_episodes_based_on_filter cfg true date_type before_date tz sel w)
    as [w' r] eqn:Hrun.
  revert w w' r Hrun. change (deletes_nothing
    (remove_episodes_based_on_filter cfg true date_type before_date tz sel)).
  unfold remove_episodes_based_on_filter.
  apply deletes_nothing_bind; [apply deletes_nothing_get_access_token|].
  intros [access_token|]; [|apply deletes_nothing_print].
  apply deletes_nothing_bind; [apply deletes_nothing_get_saved_episodes|].
  intros [|ep eps]; [apply deletes_nothing_print|].
  apply deletes_nothing_bind.
  - destruct before_date as [[|c s]|]; [apply deletes_nothing_ret| |apply deletes_nothing_ret].
    apply deletes_nothing_bind; [apply deletes_nothing_remove_episodes_by_date|].
    intros res. apply deletes_nothing_ret.
  - intros to_remove. apply deletes_nothing_ret.
Qed.

Lemma refused_token_run cfg test_mode date_type before_date tz sel refused rest tr :
  status_code refused ≠ 200 →
  remove_episodes_based_on_filter cfg test_mode date_type before_date tz sel
    (mk_world (refused :: rest) tr)
  = (mk_world rest
       (tr ++ [Post TOKEN_URL (REFRESH_TOKEN cfg) (CLIENT_ID cfg) (CLIENT_SECRET cfg);
               Print (TokenFailed (status_code refused));
               Print (ResponseText (text refused));
               Print ExitingNoToken]),
     Ok tt).
Proof.
  intros Hne. apply Z.eqb_neq in Hne.
  unfold remove_episodes_based_on_filter, get_access_token, request. unfold_M.
  cbn [pending trace]. rewrite Hne. cbn [pending trace].
  by rewrite <- !app_assoc.
Qed.

(** X17. A token exchange answered with a status other than 200 ends the
    run at once and normally: after the one POST, the status, the body and
    the exit line are printed; no episode is fetched, filtered or deleted,
    and the remaining responses are left untouched, whatever the
    arguments. *)
Theorem token_failure_ends_run cfg test_mode date_type before_date tz sel
    refused rest tr :
  status_code refused ≠ 200 →
  remove_episodes_based_on_filter cfg test_mode date_type before_date tz sel
    (mk_world (refused :: rest) tr)
  = (mk_world rest
       (tr ++ [Post TOKEN_URL (REFRESH_TOKEN cfg) (CLIENT_ID cfg) (CLIENT_SECRET cfg);
               Print (TokenFailed (status_code refused));
               Print (ResponseText (text refused));
               Print ExitingNoToken]),
     Ok tt).
Proof. apply refused_token_run. Qed.

Lemma token_failure_ends_run_401 :
  remove_episodes_based_on_filter credentials false DATE_ADDED (Some "2023-01-01")
    UTC (Some ["A Publisher"])
    (mk_world (mk_response 401 "invalid_client" OtherJson :: pending scripted_server) [])
  = (mk_world (pending scripted_server)
       ([] ++ [Post TOKEN_URL (Some "refresh") (Some "client") (Some "secret");
               Print (TokenFailed 401);
               Print (ResponseText "invalid_client");
               Print ExitingNoToken]),
     Ok tt).
Proof.
  apply (token_failure_ends_run credentials false DATE_ADDED (Some "2023-01-01")
           UTC (Some ["A Publisher"]) (mk_response 401 "invalid_client" OtherJson)).
  discriminate.
Defined.

Section Orchestrator_edges.

Variables (cfg : config) (test_mode : bool) (date_type : string)
          (tz : tzinfo) (sel : option (list string)).
Variables (w w1 w2 : world) (access_token : string).

Hypothesis token_ok :
  get_access_token (CLIENT_ID cfg) (CLIENT_SECRET cfg) (REFRESH_TOKEN cfg) w
  = (w1, Ok (Some access_token)).

Lemma empty_fetch_run before_date :
  get_saved_episodes access_token w1 = (w2, Ok []) →
  remove_episodes_based_on_filter cfg test_mode date_type before_date tz sel w
  = (mk_world (pending w2) (trace w2 ++ [Print NoEpisodesReturned]), Ok tt).
Proof using token_ok.
  intros Hfetch. unfold remove_episodes_based_on_filter. unfold_M.
  by rewrite token_ok, Hfetch.
Qed.

Lemma filter_error_run episodes before_date w3 e :
  get_saved_episodes access_token w1 = (w2, Ok episodes) →
  episodes ≠ [] → before_date ≠ "" →
  remove_episodes_by_date episodes date_type before_date tz sel w2
    = (w3, Raise e) →
  remove_episodes_based_on_filter cfg test_mode date_type (Some before_date) tz
    sel w
  = (w3, Raise e).
Proof using token_ok.
  intros Hfetch Hsome Hdate Hfilter.
  unfold remove_episodes_based_on_filter. unfold_M.
  rewrite token_ok, Hfetch.
  destruct episodes as [|ep0 eps0]; [done|].
  destruct before_date as [|c s]; [done|].
  by rewrite Hfilter.
Qed.

End Orchestrator_edges.

(** X18. When the fetch returns no episode the run ends normally after
    the line saying so: the cutoff is never parsed and [episodes_to_remove]
    never read, so a malformed or missing cutoff goes unnoticed, in a dry
    run and in a live run alike, and nothing is deleted. *)
Theorem empty_library_ends_run cfg test_mode date_type before_date tz sel w w1 w2
    access_token :
  get_access_token (CLIENT_ID cfg) (CLIENT_SECRET cfg) (REFRESH_TOKEN cfg) w
    = (w1, Ok (Some access_token)) →
  get_saved_episodes access_token w1 = (w2, Ok []) →
  remove_episodes_based_on_filter cfg test_mode date_type before_date tz sel w
  = (mk_world (pending w2) (trace w2 ++ [Print NoEpisodesReturned]), Ok tt).
Proof. intros Htoken Hfetch. by eapply empty_fetch_run. Qed.

(** A first page answered with 503, a live run and the cutoff
    'yesterday': the run ends normally. *)
Lemma empty_library_ends_run_first_page_fails :
  ∃ tr,
    remove_episodes_based_on_filter credentials false DATE_ADDED (Some "yesterday")
      UTC (Some ["A Publisher"])
      (mk_world [mk_response 200 "" (TokenJson "token");
                 mk_response 503 "Unavailable" OtherJson] [])
    = (mk_world [] (tr ++ [Print NoEpisodesReturned]), Ok tt).
Proof.
  pose (w := mk_world [mk_response 200 "" (TokenJson "token");
                       mk_response 503 "Unavailable" OtherJson] []).
  pose (r1 := get_access_token (CLIENT_ID credentials) (CLIENT_SECRET credentials)
                (REFRESH_TOKEN credentials) w).
  pose (r2 := get_saved_episodes "token" r1.1).
  exists (trace r2.1).
  apply (empty_library_ends_run credentials false DATE_ADDED (Some "yesterday")
           UTC (Some ["A Publisher"]) w r1.1 r2.1 "token");
    vm_compute; reflexivity.
Defined.

(** X19. An error raised by the filter ends the run with that error
    before any deletion: in a live run as in a dry run the world is the one
    the filter left, and no deletion request has been sent. *)
Theorem filter_error_stops_run cfg test_mode date_type before_date tz sel w w1 w2
    w3 access_token episodes e :
  get_access_token (CLIENT_ID cfg) (CLIENT_SECRET cfg) (REFRESH_TOKEN cfg) w
    = (w1, Ok (Some access_token)) →
  get_saved_episodes access_token w1 = (w2, Ok episodes) →
  episodes ≠ [] → before_date ≠ "" →
  remove_episodes_by_date episodes date_type before_date tz sel w2
    = (w3, Raise e) →
  remove_episodes_based_on_filter cfg test_mode date_type (Some before_date) tz
    sel w
  = (w3, Raise e)
  ∧ deletions (trace w3) = deletions (trace w).
Proof.
  intros Htoken Hfetch Hsome Hdate Hfilter. split.
  - by eapply filter_error_run.
  - rewrite (deletes_nothing_remove_episodes_by_date _ _ _ _ _ _ _ _ Hfilter).
    rewrite (deletes_nothing_get_saved_episodes _ _ _ _ Hfetch).
    by rewrite (deletes_nothing_get_access_token _ _ _ _ _ _ Htoken).
Qed.

Lemma filter_error_stops_run_bad_cutoff :
  ∃ w3,
    remove_episodes_based_on_filter credentials false DATE_ADDED (Some "01/01/2023")
      UTC (Some ["A Publisher"]) scripted_server
    = (w3, Raise ValueError)
    ∧ deletions (trace w3) = deletions (trace scripted_server).
Proof.
  pose (r1 := get_access_token (CLIENT_ID credentials) (CLIENT_SECRET credentials)
                (REFRESH_TOKEN credentials) scripted_server).
  pose (r2 := get_saved_episodes "token" r1.1).
  exists r2.1.
  apply (filter_error_stops_run credentials false DATE_ADDED "01/01/2023" UTC
           (Some ["A Publisher"]) scripted_server r1.1 r2.1 r2.1 "token"
           three_saved ValueError);
    [vm_compute; reflexivity | vm_compute; reflexivity | discriminate
    | discriminate | vm_compute; reflexivity].
Defined.




(** X21. [get_access_token] sends one POST with the credentials and takes
    one response.  It returns a token only from a response with status 200,
    namely the [access_token] of its body; for every other status it
    returns [None] without raising, even when the body carries a token; a
    200 body without the key raises [KeyError]. *)
Theorem token_only_from_200 client_id client_secret refresh_token r rest tr w' res :
  get_access_token client_id client_secret refresh_token (mk_world (r :: rest) tr)
    = (w', res) →
  pending w' = rest
  ∧ (∃ lines, trace w' = tr ++ Post TOKEN_URL refresh_token client_id client_secret
                               :: (Print <$> lines))
  ∧ (∀ t, res = Ok (Some t) ↔ status_code r = 200 ∧ json r = TokenJson t)
  ∧ (res = Ok None ↔ status_code r ≠ 200)
  ∧ (res = Raise KeyError ↔ status_code r = 200 ∧ ∀ t, json r ≠ TokenJson t)
  ∧ res ≠ Raise ConnectionError.
Proof.
  unfold get_access_token, request. unfold_M. cbn [pending trace].
  destruct (Z.eqb_spec (status_code r) 200) as [H200|Hne].
  - destruct (json r) as [t|items next|] eqn:Hjson; intros [= <- <-];
      cbn [pending trace]; (split; [done|]);
      (split; [exists [TokenObtained]; by rewrite <- app_assoc|]);
      repeat split; try done; try (intros; intuition congruence);
      try (intros [H1 H2]; by destruct (H2 t)).
  - intros [= <- <-]. cbn [pending trace]. split; [done|].
    split; [eexists [_; _]; by rewrite <- !app_assoc|].
    repeat split; try done; try (intros; intuition congruence).
Qed.

Lemma token_only_from_200_refused_with_token :
  let r := mk_response 403 "Forbidden" (TokenJson "stale") in
  let run := get_access_token (Some "client") (Some "secret") (Some "refresh")
               (mk_world [r] []) in
  run.2 = Ok None ∧ pending run.1 = [].
Proof.
  intros r run.
  destruct (token_only_from_200 (Some "client") (Some "secret") (Some "refresh")
              r [] [] run.1 run.2 eq_refl) as (Hp & _ & _ & Hnone & _).
  split; [|exact Hp]. apply Hnone. discriminate.
Defined.

(** ** The entry point *)

(** *** The functions only add to the trace *)

Section Trace_blind.

Context {A B : Type}.

Lemma trace_blind_ret (a : A) : trace_blind (mret a : M A).
Proof. intros p tr. unfold_M. cbn. by rewrite app_nil_r. Qed.

Lemma trace_blind_raise e : trace_blind (raise e : M A).
Proof. intros p tr. unfold_M. cbn. by rewrite app_nil_r. Qed.

Lemma trace_blind_lift (x : result A) : trace_blind (lift x).
Proof. intros p tr. unfold_M. cbn. by rewrite app_nil_r. Qed.

Lemma trace_blind_bind (m : M A) (k : A → M B) :
  trace_blind m → (∀ a, trace_blind (k a)) → trace_blind (m ≫= k).
Proof.
  intros Hm Hk p tr. unfold_M. rewrite (Hm p tr).
  destruct (m (mk_world p [])) as [[p1 t1] [a|e]]; cbn [fst snd pending trace];
    [|done].
  rewrite (Hk a p1 (tr ++ t1)), (Hk a p1 t1).
  destruct (k a (mk_world p1 [])) as [[p2 t2] r2]; cbn [fst snd pending trace].
  by rewrite app_assoc.
Qed.

End Trace_blind.

Lemma trace_blind_print m : trace_blind (print m).
Proof. by intros p tr. Qed.

Lemma trace_blind_request e : trace_blind (request e).
Proof. intros p tr. unfold request. cbn [pending trace]. by destruct p. Qed.

Lemma trace_blind_get_access_token client_id client_secret refresh_token :
  trace_blind (get_access_token client_id client_secret refresh_token).
Proof.
  unfold get_access_token.
  apply trace_blind_bind; [apply trace_blind_request|]. intros r. case_match.
  - apply trace_blind_bind; [apply trace_blind_print|]. intros _.
    case_match; first [apply trace_blind_ret | apply trace_blind_raise].
  - repeat (apply trace_blind_bind; [apply trace_blind_print|]; intros _).
    apply trace_blind_ret.
Qed.

Lemma fetch_pages_trace access_token responses : ∀ url episodes tr,
  fetch_pages access_token responses url episodes tr
  = (mk_world (pending (fetch_pages access_token responses url episodes []).1)
       (tr ++ trace (fetch_pages access_token responses url episodes []).1),
     (fetch_pages access_token responses url episodes []).2).
Proof.
  induction responses as [|r responses IH]; intros url episodes tr.
  - destruct url as [[|c u]|]; cbn; by rewrite ?app_nil_r.
  - destruct url as [[|c u]|]; cbn [fetch_pages]; [cbn; by rewrite app_nil_r| |
      cbn; by rewrite app_nil_r].
    case_match.
    + case_match; [done| |done].
      rewrite (IH _ _ (tr ++ _)), (IH _ _ ([] ++ _)). cbn [fst snd pending trace].
      by rewrite <- !app_assoc.
    + cbn. by rewrite <- !app_assoc.
Qed.

Lemma trace_blind_get_saved_episodes access_token :
  trace_blind (get_saved_episodes access_token).
Proof.
  unfold get_saved_episodes. apply trace_blind_bind.
  - intros p tr. cbn [pending trace]. apply fetch_pages_trace.
  - intros episodes. apply trace_blind_bind; [apply trace_blind_print|].
    intros _. apply trace_blind_ret.
Qed.

Lemma trace_blind_filter_loop date_type cutoff tz authors episodes :
  ∀ filtered,
    trace_blind (filter_loop date_type cutoff tz authors episodes filtered).
Proof.
  induction episodes as [|ep eps IH]; intros acc; cbn [filter_loop].
  - apply trace_blind_ret.
  - case_match; [apply IH|].
    apply trace_blind_bind; [apply trace_blind_lift|]. intros [d lbl].
    apply trace_blind_bind; [apply trace_blind_lift|]. intros t.
    case_match; [|apply IH].
    apply trace_blind_bind; [apply trace_blind_print|]. intros _. apply IH.
Qed.

Lemma trace_blind_remove_episodes_by_date episodes date_type before_date tz sel :
  trace_blind (remove_episodes_by_date episodes date_type before_date tz sel).
Proof.
  unfold remove_episodes_by_date.
  apply trace_blind_bind; [apply trace_blind_lift|]. intros d.
  apply trace_blind_bind; [apply trace_blind_lift|]. intros c.
  destruct sel as [[|a l]|].
  - apply trace_blind_bind; [apply trace_blind_print|]. intros _.
    apply trace_blind_ret.
  - apply trace_blind_bind; [apply trace_blind_filter_loop|]. intros res.
    apply trace_blind_bind; [apply trace_blind_print|]. intros _.
    apply trace_blind_ret.
  - apply trace_blind_bind; [apply trace_blind_print|]. intros _.
    apply trace_blind_ret.
Qed.

Lemma trace_blind_remove_loop access_token episodes :
  trace_blind (remove_loop access_token episodes).
Proof.
  induction episodes as [|ep eps IH]; cbn [remove_loop].
  - apply trace_blind_ret.
  - apply trace_blind_bind.
    + unfold remove_saved_episode.
      apply trace_blind_bind; [apply trace_blind_request|]. intros r.
      apply trace_blind_ret.
    + intros status. apply trace_blind_bind; [|intros _; apply IH].
      case_match; apply trace_blind_print.
Qed.

Lemma trace_blind_remove_episodes_based_on_filter cfg test_mode date_type
    before_date tz sel :
  trace_blind
    (remove_episodes_based_on_filter cfg test_mode date_type before_date tz sel).
Proof.
  unfold remove_episodes_based_on_filter.
  apply trace_blind_bind; [apply trace_blind_get_access_token|].
  intros [access_token|]; [|apply trace_blind_print].
  apply trace_blind_bind; [apply trace_blind_get_saved_episodes|].
  intros [|ep eps]; [apply trace_blind_print|].
  apply trace_blind_bind.
  - destruct before_date as [[|c s]|]; [apply trace_blind_ret| |apply trace_blind_ret].
    apply trace_blind_bind; [apply trace_blind_remove_episodes_by_date|].
    intros res. apply trace_blind_ret.
  - intros [[|x xs]|]; destruct test_mode; cbn [negb];
      first [apply trace_blind_ret | apply trace_blind_raise
            | apply trace_blind_remove_loop].
Qed.

(** A call from the script shows on the screen what the function adds to
    the trace of a world with the same server. *)
Lemma call_run {A} (m : M A) p tr :
  trace_blind m →
  call m (mk_console p (Call <$> tr))
  = (mk_console (pending (m (mk_world p tr)).1)
       (Call <$> trace (m (mk_world p tr)).1),
     (m (mk_world p tr)).2).
Proof.
  intros Hm. unfold call. cbn [server screen]. rewrite (Hm p tr).
  destruct (m (mk_world p [])) as [[p1 t1] r]. cbn [fst snd pending trace].
  by rewrite fmap_app.
Qed.

(** *** The script *)

(** The script up to its last call: with a token, a first fetch and a
    known timezone label it shows the two prompts and its line of options,
    then runs [remove_episodes_based_on_filter] on the server the first
    fetch left. *)
Lemma main_reaches_filter cfg timezone checked a srv scr w1 w2 access_token
    episodes zone :
  get_access_token (CLIENT_ID cfg) (CLIENT_SECRET cfg) (REFRESH_TOKEN cfg)
    (mk_world srv []) = (w1, Ok (Some access_token)) →
  access_token ≠ "" →
  get_saved_episodes access_token (mk_world (pending w1) []) = (w2, Ok episodes) →
  dict common_timezones !! ans_timezone a = Some zone →
  let authors := SELECT_ALL :: get_unique_authors episodes in
  let chosen := selection authors checked in
  let before :=
    scr ++ (Call <$> trace w1) ++ (Call <$> trace w2)
        ++ [AskAuthors authors]
        ++ (if chosen.2 then [AutoSelectAll] else [])
        ++ [AskOptions [DATE_ADDED; RELEASE_DATE] (fst <$> common_timezones);
            RunningWith (ans_date_type a) (ans_before_date a) (ans_test_mode a)
              (ans_timezone a) chosen.1] in
  main cfg timezone checked a (mk_console srv scr)
  = let run := remove_episodes_based_on_filter cfg (ans_test_mode a)
                 (ans_date_type a) (Some (ans_before_date a)) (timezone zone)
                 (Some chosen.1) (mk_world (pending w2) []) in
    (mk_console (pending run.1) (before ++ (Call <$> trace run.1)),
     ending_of run.2).
Proof.
  intros Htoken Hne Hfetch Hzone authors chosen before. cbv zeta.
  set (run := remove_episodes_based_on_filter _ _ _ _ _ _ _).
  unfold main, call. cbn [server screen]. rewrite Htoken.
  destruct access_token as [|c0 tok]; [done|].
  cbn [server screen]. rewrite Hfetch, Hzone.
  fold authors. fold chosen. subst before.
  rewrite (surjective_pairing chosen) at 1.
  unfold display. cbn [server screen].
  destruct chosen.2; cbn [server screen];
    change (remove_episodes_based_on_filter _ _ _ _ _ _ _) with run;
    destruct run as [w' r]; cbn [fst snd];
    by rewrite <- ?app_assoc; cbn [app].
Qed.

(** X22. The script exits at once when it has no usable token: when the
    token exchange is answered with a status other than 200, and also when
    it is answered with 200 and an empty token (the line of success is then
    printed first).  It prints that authentication failed; no episode is
    fetched, no prompt is shown and the other responses are left
    untouched. *)
Theorem main_exits_without_token cfg timezone checked a r rest scr :
  status_code r ≠ 200 ∨ (status_code r = 200 ∧ json r = TokenJson "") →
  ∃ lines,
    main cfg timezone checked a (mk_console (r :: rest) scr)
    = (mk_console rest
         (scr ++ Call (Post TOKEN_URL (REFRESH_TOKEN cfg) (CLIENT_ID cfg)
                         (CLIENT_SECRET cfg))
              :: (Call ∘ Print <$> lines) ++ [AuthFailed]),
       Exited).
Proof.
  intros [Hne | [H200 Hjson]]; unfold main, call, get_access_token, request;
    unfold_M; cbn [server screen pending trace app].
  - apply Z.eqb_neq in Hne. rewrite Hne. cbn [pending trace app].
    exists [TokenFailed (status_code r); ResponseText (text r)].
    unfold display. cbn [server screen]. by rewrite <- app_assoc.
  - rewrite H200, Hjson. cbn [Z.eqb Pos.eqb pending trace app].
    exists [TokenObtained].
    unfold display. cbn [server screen]. by rewrite <- app_assoc.
Qed.

Lemma main_exits_without_token_empty :
  ∃ lines,
    main credentials (λ _, UTC) ["A Publisher"]
      (mk_answers DATE_ADDED "2023-01-01" "UTC (Coordinated Universal Time)" false)
      (mk_console (mk_response 200 "" (TokenJson "") :: pending scripted_server) [])
    = (mk_console (pending scripted_server)
         ([] ++ Call (Post TOKEN_URL (Some "refresh") (Some "client") (Some "secret"))
             :: (Call ∘ Print <$> lines) ++ [AuthFailed]),
       Exited).
Proof.
  apply (main_exits_without_token credentials (λ _, UTC) ["A Publisher"]
           (mk_answers DATE_ADDED "2023-01-01" "UTC (Coordinated Universal Time)" false)
           (mk_response 200 "" (TokenJson "")) (pending scripted_server) []).
  right. by split.
Defined.

(** X23. The selection the script passes on.  It is every author of the
    fetched list when no box is checked or a checked box reads 'Select All'
    (the first choice, or a publisher of that very name), and then it
    covers the publisher of every fetched episode; otherwise it is the
    checked boxes as they are.  It is never empty when an episode was
    fetched. *)
Theorem selection_covers_library episodes checked :
  let authors := SELECT_ALL :: get_unique_authors episodes in
  let chosen := selection authors checked in
  (chosen.2 = true ↔ checked = [] ∨ SELECT_ALL ∈ checked)
  ∧ (chosen.2 = true →
       chosen.1 = get_unique_authors episodes
       ∧ ∀ ep, ep ∈ episodes → publisher_of ep ∈ chosen.1)
  ∧ (chosen.2 = false → chosen.1 = checked)
  ∧ (episodes ≠ [] → chosen.1 ≠ []).
Proof.
  intros authors chosen. subst chosen authors. unfold selection.
  assert (Hcover : ∀ ep, ep ∈ episodes
                         → publisher_of ep ∈ get_unique_authors episodes)
    by (intros ep Hep; apply elem_of_unique_authors; by exists ep).
  assert (Hsome : episodes ≠ [] → get_unique_authors episodes ≠ []).
  { intros Hne Hempty. destruct episodes as [|ep eps]; [done|].
    specialize (Hcover ep ltac:(by left)). rewrite Hempty in Hcover.
    by apply elem_of_nil in Hcover. }
  destruct (bool_decide (checked = []) || bool_decide (SELECT_ALL ∈ checked))
    eqn:Hall; cbn [fst snd tail].
  - apply orb_true_iff in Hall.
    rewrite !bool_decide_eq_true in Hall. by repeat split.
  - apply orb_false_iff in Hall as [Hnil Hin].
    rewrite bool_decide_eq_false in Hnil, Hin.
    split; [split; [done|by intros [?|?]]|].
    split; [done|]. split; [done|]. by intros _.
Qed.

(** X24. The script exchanges the token a second time, after the prompts.
    When the first exchange and the fetch succeed and that second exchange
    is refused, the script completes normally right after its line of
    options: the run prints the refusal and the exit line, and nothing is
    fetched again, filtered or deleted, in a live run as in a dry run. *)
Theorem main_second_exchange_refused cfg timezone checked a srv scr w1 w2
    access_token episodes zone refused rest :
  get_access_token (CLIENT_ID cfg) (CLIENT_SECRET cfg) (REFRESH_TOKEN cfg)
    (mk_world srv []) = (w1, Ok (Some access_token)) →
  access_token ≠ "" →
  get_saved_episodes access_token (mk_world (pending w1) []) = (w2, Ok episodes) →
  dict common_timezones !! ans_timezone a = Some zone →
  pending w2 = refused :: rest →
  status_code refused ≠ 200 →
  ∃ before,
    main cfg timezone checked a (mk_console srv scr)
    = (mk_console rest
         (before
          ++ [RunningWith (ans_date_type a) (ans_before_date a) (ans_test_mode a)
                (ans_timezone a)
                (selection (SELECT_ALL :: get_unique_authors episodes) checked).1]
          ++ (Call <$>
              [Post TOKEN_URL (REFRESH_TOKEN cfg) (CLIENT_ID cfg) (CLIENT_SECRET cfg);
               Print (TokenFailed (status_code refused));
               Print (ResponseText (text refused));
               Print ExitingNoToken])),
       Completed).
Proof.
  intros Htoken Hne Hfetch Hzone Hpending Hrefused.
  rewrite (main_reaches_filter cfg timezone checked a srv scr w1 w2 access_token
             episodes zone Htoken Hne Hfetch Hzone).
  cbv zeta. rewrite Hpending.
  rewrite (refused_token_run _ _ _ _ _ _ _ _ _ Hrefused).
  cbn [fst snd pending trace ending_of app].
  exists (scr ++ (Call <$> trace w1) ++ (Call <$> trace w2)
          ++ [AskAuthors (SELECT_ALL :: get_unique_authors episodes)]
          ++ (if (selection (SELECT_ALL :: get_unique_authors episodes) checked).2
              then [AutoSelectAll] else [])
          ++ [AskOptions [DATE_ADDED; RELEASE_DATE] (fst <$> common_timezones)]).
  do 2 f_equal. rewrite <- !app_assoc. cbn [app].
  by destruct (selection _ checked).2.
Qed.

Lemma main_second_exchange_refused_expired :
  ∃ before,
    main credentials (λ _, UTC) []
      (mk_answers DATE_ADDED "2023-01-01" "UTC (Coordinated Universal Time)" false)
      (mk_console
         [mk_response 200 "" (TokenJson "token");
          mk_response 200 "" (PageJson three_saved None);
          mk_response 401 "expired" OtherJson;
          mk_response 200 "" OtherJson] [])
    = (mk_console [mk_response 200 "" OtherJson]
         (before
          ++ [RunningWith DATE_ADDED "2023-01-01" false
                "UTC (Coordinated Universal Time)"
                (selection (SELECT_ALL :: get_unique_authors three_saved) []).1]
          ++ (Call <$>
              [Post TOKEN_URL (Some "refresh") (Some "client") (Some "secret");
               Print (TokenFailed 401);
               Print (ResponseText "expired");
               Print ExitingNoToken])),
       Completed).
Proof.
  pose (srv := [mk_response 200 "" (TokenJson "token");
                mk_response 200 "" (PageJson three_saved None);
                mk_response 401 "expired" OtherJson;
                mk_response 200 "" OtherJson]).
  pose (r1 := get_access_token (CLIENT_ID credentials) (CLIENT_SECRET credentials)
                (REFRESH_TOKEN credentials) (mk_world srv [])).
  pose (r2 := get_saved_episodes "token" (mk_world (pending r1.1) [])).
  apply (main_second_exchange_refused credentials (λ _, UTC) []
           (mk_answers DATE_ADDED "2023-01-01" "UTC (Coordinated Universal Time)" false)
           srv [] r1.1 r2.1 "token" three_saved "UTC"
           (mk_response 401 "expired" OtherJson) [mk_response 200 "" OtherJson]);
    [vm_compute; reflexivity | discriminate | vm_compute; reflexivity
    | vm_compute; reflexivity | vm_compute; reflexivity | discriminate].
Defined.

Lemma no_delete_calls tr :
  deletions tr = [] →
  Forall (λ e, ∀ url bearer, e ≠ Call (Delete url bearer)) (Call <$> tr).
Proof.
  induction tr as [|e tr IH]; [constructor|].
  unfold deletions in *. cbn [omap list_omap]. rewrite fmap_cons.
  destruct e; try done; intros H; (constructor; [by intros ?? [=] | by apply IH]).
Qed.

(** X25. Leaving the date prompt empty.  When both token exchanges and
    both fetches succeed and the second fetch returns an episode, an empty
    answer to the date prompt makes a live run end with an uncaught
    [UnboundLocalError] and a dry run complete; either way nothing is
    filtered and no deletion is sent. *)
Theorem main_empty_date cfg timezone checked a srv scr w1 w2 w3 w4 access_token
    episodes zone access_token2 episodes2 :
  get_access_token (CLIENT_ID cfg) (CLIENT_SECRET cfg) (REFRESH_TOKEN cfg)
    (mk_world srv []) = (w1, Ok (Some access_token)) →
  access_token ≠ "" →
  get_saved_episodes access_token (mk_world (pending w1) []) = (w2, Ok episodes) →
  dict common_timezones !! ans_timezone a = Some zone →
  get_access_token (CLIENT_ID cfg) (CLIENT_SECRET cfg) (REFRESH_TOKEN cfg)
    (mk_world (pending w2) []) = (w3, Ok (Some access_token2)) →
  get_saved_episodes access_token2 w3 = (w4, Ok episodes2) →
  episodes2 ≠ [] →
  ans_before_date a = "" →
  ∃ scr',
    main cfg timezone checked a (mk_console srv scr)
    = (mk_console (pending w4) (scr ++ scr'),
       if ans_test_mode a then Completed else Raised UnboundLocalError)
    ∧ Forall (λ e, ∀ url bearer, e ≠ Call (Delete url bearer)) scr'.
Proof.
  intros Htoken Hne Hfetch Hzone Htoken2 Hfetch2 Hsome Hdate.
  rewrite (main_reaches_filter cfg timezone checked a srv scr w1 w2 access_token
             episodes zone Htoken Hne Hfetch Hzone).
  cbv zeta. rewrite Hdate.
  rewrite (unbound_without_cutoff cfg (ans_date_type a) (timezone zone) _
             (mk_world (pending w2) []) w3 w4 access_token2 episodes2 Htoken2
             Hfetch2 Hsome (Some "") (ans_test_mode a)) by (by right).
  cbn [fst snd].
  exists ((Call <$> trace w1) ++ (Call <$> trace w2)
          ++ [AskAuthors (SELECT_ALL :: get_unique_authors episodes)]
          ++ (if (selection (SELECT_ALL :: get_unique_authors episodes) checked).2
              then [AutoSelectAll] else [])
          ++ [AskOptions [DATE_ADDED; RELEASE_DATE] (fst <$> common_timezones);
              RunningWith (ans_date_type a) "" (ans_test_mode a) (ans_timezone a)
                (selection (SELECT_ALL :: get_unique_authors episodes) checked).1]
          ++ (Call <$> trace w4)).
  split.
  - f_equal; [|by destruct (ans_test_mode a)].
    f_equal. by rewrite <- !app_assoc.
  - pose proof (deletes_nothing_get_access_token _ _ _ _ _ _ Htoken) as H1.
    pose proof (deletes_nothing_get_saved_episodes _ _ _ _ Hfetch) as H2.
    pose proof (deletes_nothing_get_access_token _ _ _ _ _ _ Htoken2) as H3.
    pose proof (deletes_nothing_get_saved_episodes _ _ _ _ Hfetch2) as H4.
    cbn [trace] in H1, H2, H3. rewrite H3 in H4.
    repeat (apply Forall_app; split); try (by apply no_delete_calls).
    + by repeat constructor.
    + destruct (selection _ checked).2; by repeat constructor.
    + by repeat constructor.
Qed.

Lemma main_empty_date_live :
  ∃ scr',
    main credentials (λ _, UTC) []
      (mk_answers DATE_ADDED "" "UTC (Coordinated Universal Time)" false)
      (mk_console (take 2 (pending scripted_server) ++ pending scripted_server) [])
    = (mk_console (drop 2 (pending scripted_server)) ([] ++ scr'),
       if false then Completed else Raised UnboundLocalError)
    ∧ Forall (λ e, ∀ url bearer, e ≠ Call (Delete url bearer)) scr'.
Proof.
  pose (srv := take 2 (pending scripted_server) ++ pending scripted_server).
  pose (r1 := get_access_token (CLIENT_ID credentials) (CLIENT_SECRET credentials)
                (REFRESH_TOKEN credentials) (mk_world srv [])).
  pose (r2 := get_saved_episodes "token" (mk_world (pending r1.1) [])).
  pose (r3 := get_access_token (CLIENT_ID credentials) (CLIENT_SECRET credentials)
                (REFRESH_TOKEN credentials) (mk_world (pending r2.1) [])).
  pose (r4 := get_saved_episodes "token" r3.1).
  apply (main_empty_date credentials (λ _, UTC) []
           (mk_answers DATE_ADDED "" "UTC (Coordinated Universal Time)" false)
           srv [] r1.1 r2.1 r3.1 r4.1 "token" three_saved "UTC" "token"
           three_saved);
    [vm_compute; reflexivity | discriminate | vm_compute; reflexivity
    | vm_compute; reflexivity | vm_compute; reflexivity
    | vm_compute; reflexivity | discriminate | reflexivity].
Defined.

(** ** Dry runs and live runs *)

Lemma remove_loop_shape access_token episodes : ∀ w w' r,
  remove_loop access_token episodes w = (w', r) →
  ∃ consumed tr,
    pending w = consumed ++ pending w'
    ∧ trace w' = trace w ++ tr
    ∧ Forall deletion_event tr.
Proof.
  induction episodes as [|ep eps IH]; intros w w' r; cbn [remove_loop].
  - unfold_M. intros [= <- _]. exists [], []. by rewrite app_nil_r.
  - unfold remove_saved_episode, request. unfold_M.
    destruct w as [[|x rest] tr0]; cbn [pending trace].
    + intros [= <- _]. exists [], [Delete (delete_url ep) access_token].
      repeat split. by repeat constructor.
    + destruct (status_code x =? 200); cbn [pending trace]; intros Hrun;
        apply IH in Hrun as (consumed & tr & Hp & Htr & Hall);
        cbn [pending trace] in *.
      * exists (x :: consumed),
          (Delete (delete_url ep) access_token
           :: Print (Removed (name (the_episode ep))
                       (show_name (of_show (the_episode ep)))) :: tr).
        split; [by rewrite Hp|]. split; [by rewrite Htr, <- !app_assoc|].
        by repeat constructor.
      * exists (x :: consumed),
          (Delete (delete_url ep) access_token
           :: Print (FailedToRemove (name (the_episode ep))
                       (show_name (of_show (the_episode ep)))) :: tr).
        split; [by rewrite Hp|]. split; [by rewrite Htr, <- !app_assoc|].
        by repeat constructor.
Qed.

(** X27. A live run is the dry run followed by deletions.  From the same
    world and with the same arguments, the run with [test_mode] false
    repeats everything the run with [test_mode] true requests and prints,
    and adds to it only deletion requests and their outcome lines; when the
    dry run raises, the live run raises the same error and adds nothing. *)
Theorem live_run_extends_dry_run cfg date_type before_date tz sel w :
  let dry := remove_episodes_based_on_filter cfg true date_type before_date tz
               sel w in
  let live := remove_episodes_based_on_filter cfg false date_type before_date tz
                sel w in
  ∃ consumed tr,
    pending dry.1 = consumed ++ pending live.1
    ∧ trace live.1 = trace dry.1 ++ tr
    ∧ Forall deletion_event tr
    ∧ (dry.2 ≠ Ok tt → live.2 = dry.2 ∧ tr = []).
Proof.
  intros dry live. subst dry live.
  unfold remove_episodes_based_on_filter. unfold_M.
  destruct (get_access_token _ _ _ w) as [w1 [[access_token|]|e]];
    [| by exists [], []; rewrite app_nil_r | by exists [], []; rewrite app_nil_r].
  destruct (get_saved_episodes access_token w1) as [w2 [[|ep eps]|e]];
    [by exists [], []; rewrite app_nil_r | | by exists [], []; rewrite app_nil_r].
  destruct before_date as [[|c s]|];
    [by exists [], []; rewrite app_nil_r | | by exists [], []; rewrite app_nil_r].
  destruct (remove_episodes_by_date _ _ _ _ _ w2) as [w3 [[|x xs]|e]];
    cbn [negb fst snd];
    [by exists [], []; rewrite app_nil_r | | by exists [], []; rewrite app_nil_r].
  destruct (remove_loop access_token (x :: xs) w3) as [w4 r] eqn:Hloop.
  apply remove_loop_shape in Hloop as (consumed & tr & Hp & Htr & Hall).
  exists consumed, tr. cbn [fst snd]. by repeat split.
Qed.

(** X26. Every zero-padded YYYY-MM-DD string of a calendar day of the
    years 1 to 9999 is read back by the parser of the cutoff as that day at
    midnight: such a cutoff never raises the parse error. *)
Theorem iso_cutoff_accepted d :
  check_fields d = Ok d → hour d = 0 → minute d = 0 → second d = 0 →
  strptime_date (isoformat d) = Ok d.
Proof. apply strptime_date_isoformat. Qed.

Lemma iso_cutoff_accepted_leap_day :
  isoformat (mk_datetime 2024 2 29 0 0 0) = "2024-02-29"
  ∧ strptime_date "2024-02-29" = Ok (mk_datetime 2024 2 29 0 0 0).
Proof.
  split; [reflexivity|].
  exact (iso_cutoff_accepted (mk_datetime 2024 2 29 0 0 0) eq_refl eq_refl
           eq_refl eq_refl).
Defined.
